(** * EnglishForge: the replica-reconciliation engine

    A shallow embedding of the cloud synchronisation code of EnglishForge
    ([src/utils/cloudSync.ts], the data model of [src/types.ts] and the
    superseded item-union variant of the same module) together with the
    properties its specification states about it.

    Conventions of the embedding:
    - a JavaScript [number] holding an epoch-millisecond timestamp is a [Z];
      [NaN] and fractional values are outside the model;
    - [a || b] on numbers is written out ([js_or]): [undefined] and [0] are
      falsy;
    - a JS [Map] is an association list in insertion order, a JS [Set] a
      duplicate-free list in insertion order: [Array.from] of either yields
      the elements in that order, and the merged result is such an array;
    - the asynchronous orchestrator is a state-and-exception monad over a
      [World] made of the Local Store, the Firestore documents, the two
      clocks and the console. *)

From Stdlib Require Import List String Ascii ZArith Bool Lia Sorted Permutation.
Import ListNotations.
Local Open Scope string_scope.
Local Open Scope Z_scope.
Local Open Scope list_scope.

(* ================================================================= *)
(** ** JavaScript containers *)

(** [Set<string>]: insertion ordered, no duplicates. *)
Module JsSet.

Definition t := list string.

Definition empty : t := [].

Definition has (x : string) (s : t) : bool := existsb (String.eqb x) s.

Definition add (x : string) (s : t) : t := if has x s then s else s ++ [x].

(** [add] for each element of an iterable, in its order. *)
Definition add_all (xs : list string) (s : t) : t :=
  fold_left (fun s x => add x s) xs s.

(** [new Set(xs)] *)
Definition of_list (xs : list string) : t := add_all xs empty.

(** [Array.from(s)] *)
Definition to_list (s : t) : list string := s.

End JsSet.

(** [Map<string, V>]: insertion ordered; [set] on a key already present
    replaces the value and keeps the key's position. *)
Module JsMap.
Section WithValue.
Context {V : Type}.

Definition t := list (string * V).

Definition empty : t := [].

Fixpoint get (k : string) (m : t) : option V :=
  match m with
  | [] => None
  | (k', v) :: m' => if String.eqb k k' then Some v else get k m'
  end.

Fixpoint set (k : string) (v : V) (m : t) : t :=
  match m with
  | [] => [(k, v)]
  | (k', v') :: m' =>
      if String.eqb k k' then (k, v) :: m' else (k', v') :: set k v m'
  end.

Definition keys (m : t) : list string := map fst m.

(** [Array.from(m.values())] *)
Definition values (m : t) : list V := map snd m.

End WithValue.
Arguments t : clear implicits.
End JsMap.

(** [a || b] where [a] is an optional number: [undefined] and [0] are falsy. *)
Definition js_or (a : option Z) (b : Z) : Z :=
  match a with
  | Some v => if v =? 0 then b else v
  | None => b
  end.

(** [Array.prototype.sort(cmp)]: the sort is stable, so for a consistent
    comparator its result is the one stable arrangement; it is computed
    here by insertion from the right.  [cmp x y <= 0] leaves [x], which
    came first, in front of [y]. *)
Section StableSort.
Context {A : Type} (cmp : A -> A -> Z).

Fixpoint sort_insert (x : A) (l : list A) : list A :=
  match l with
  | [] => [x]
  | y :: l' => if cmp x y <=? 0 then x :: y :: l' else y :: sort_insert x l'
  end.

Definition js_sort (l : list A) : list A := fold_right sort_insert [] l.
End StableSort.

(* ================================================================= *)
(** ** Data model ([src/types.ts]) *)

Inductive ItemType := word | sentence.

Module Item.
Record t := mk {
  id : string;
  chinese : string;
  english : string;
  type : ItemType;
  createdAt : Z
}.
End Item.
Definition VocabularyItem : Type := Item.t.

Inductive Category := dictation | read_speak.

Module Lib.
Record t := mk {
  id : string;
  name : string;
  category : option Category;
  items : list VocabularyItem;
  createdAt : Z;
  updatedAt : option Z
}.

(** [existed.items = its] on the object held by the map. *)
Definition with_items (l : t) (its : list VocabularyItem) : t :=
  mk (id l) (name l) (category l) its (createdAt l) (updatedAt l).
End Lib.
Definition VocabularyLibrary : Type := Lib.t.

(** Modelled from the spec: the [PracticeProgress] type, declared in the
    storage module ([src/utils/storage.ts]), which is not among the files
    covered here: "which library, position, and a [timestamp]". *)
Record PracticeProgress := mkProgress {
  libraryId : string;
  position : Z;
  timestamp : Z
}.

(* ================================================================= *)
(** ** The tombstone-aware merge ([smartMergeLibraries]) *)

Module CloudSync.

(** [lib.updatedAt || lib.createdAt || 0] *)
Definition effectiveTime (lib : VocabularyLibrary) : Z :=
  js_or (Some (js_or (Lib.updatedAt lib) (Lib.createdAt lib))) 0.

Definition processLib (allDeletedIds : JsSet.t)
    (mergedMap : JsMap.t VocabularyLibrary) (lib : VocabularyLibrary)
    : JsMap.t VocabularyLibrary :=
  if JsSet.has (Lib.id lib) allDeletedIds then mergedMap
  else
    match JsMap.get (Lib.id lib) mergedMap with
    | None => JsMap.set (Lib.id lib) lib mergedMap
    | Some existing =>
        let libTime := effectiveTime lib in
        let existingTime := effectiveTime existing in
        if libTime >? existingTime
        then JsMap.set (Lib.id lib) lib mergedMap
        else mergedMap
    end.

Record MergeResult := mkMergeResult {
  merged : list VocabularyLibrary;
  finalDeletedIds : list string
}.

Definition smartMergeLibraries
    (localLibs remoteLibs : list VocabularyLibrary)
    (localDeletedIds remoteDeletedIds : list string) : MergeResult :=
  let allDeletedIds := JsSet.of_list (localDeletedIds ++ remoteDeletedIds) in
  let mergedMap := JsMap.empty in
  let mergedMap := fold_left (processLib allDeletedIds) localLibs mergedMap in
  let mergedMap := fold_left (processLib allDeletedIds) remoteLibs mergedMap in
  {| merged := JsMap.values mergedMap;
     finalDeletedIds := JsSet.to_list allDeletedIds |}.

End CloudSync.

(* ================================================================= *)
(** ** The superseded item-union merge ([mergeLibraries]) *)

Module LegacySync.

Definition typeString (ty : ItemType) : string :=
  match ty with
  | word => "word"
  | sentence => "sentence"
  end.

(** [`${it.type}#${it.english}#${it.chinese}`] *)
Definition uniqueKeyOfItem (it : VocabularyItem) : string :=
  (typeString (Item.type it) ++ "#" ++ Item.english it ++ "#" ++ Item.chinese it)%string.

(** The body of [for (const it of lib.items)]: the loop state is the
    array [existed.items] and the set [seen]. *)
Definition pushItem (st : list VocabularyItem * JsSet.t) (it : VocabularyItem)
    : list VocabularyItem * JsSet.t :=
  let '(existedItems, seen) := st in
  let key := uniqueKeyOfItem it in
  if negb (JsSet.has key seen)
  then (existedItems ++ [it], JsSet.add key seen)
  else (existedItems, seen).

(** [(x, y) => (y.createdAt || 0) - (x.createdAt || 0)] *)
Definition byCreatedAtDesc (x y : VocabularyItem) : Z :=
  js_or (Some (Item.createdAt y)) 0 - js_or (Some (Item.createdAt x)) 0.

(** The map holds its own object [{ ...lib, items: [...lib.items] }], so
    the later [push] and [sort] on [existed.items] change the entry of the
    map and nothing else. *)
Definition pushLib (byId : JsMap.t VocabularyLibrary) (lib : VocabularyLibrary)
    : JsMap.t VocabularyLibrary :=
  match JsMap.get (Lib.id lib) byId with
  | None => JsMap.set (Lib.id lib) (Lib.with_items lib (Lib.items lib)) byId
  | Some existed =>
      let seen := JsSet.of_list (map uniqueKeyOfItem (Lib.items existed)) in
      let '(pushed, _) :=
        fold_left pushItem (Lib.items lib) (Lib.items existed, seen) in
      JsMap.set (Lib.id lib)
        (Lib.with_items existed (js_sort byCreatedAtDesc pushed)) byId
  end.

Definition mergeLibraries (a b : list VocabularyLibrary)
    : list VocabularyLibrary :=
  let byId := JsMap.empty in
  let byId := fold_left pushLib a byId in
  let byId := fold_left pushLib b byId in
  JsMap.values byId.

End LegacySync.

(* ================================================================= *)
(** ** The collaborators of the orchestrator *)

(** The Local Store behind [./storage] ([src/utils/storage.ts]), which is
    not among the files covered here; every definition of this module is
    modelled from the interface the specification gives for it:
    synchronous get/set of the libraries collection (replaced in full),
    of a tombstone set that only grows, and of one progress snapshot. *)
Module Storage.

(** Modelled from the spec: the three values the Local Store keeps.
    [progressWritable] says whether a [savePracticeProgress] goes through;
    it is the one call the orchestrator guards with [try]/[catch]. *)
Record LocalStore := mkStore {
  libraries : list VocabularyLibrary;
  deletedLibraryIds : list string;
  practiceProgress : option PracticeProgress;
  progressWritable : bool
}.

(** Modelled from the spec: [loadLibraries() -> Library[]]. *)
Definition loadLibraries (s : LocalStore) : list VocabularyLibrary :=
  libraries s.

(** Modelled from the spec: [saveLibraries(Library[])], a full replace
    of the libraries collection. *)
Definition saveLibraries (libs : list VocabularyLibrary) (s : LocalStore)
    : LocalStore :=
  mkStore libs (deletedLibraryIds s) (practiceProgress s) (progressWritable s).

(** Modelled from the spec: [getDeletedLibraryIds() -> string[]]. *)
Definition getDeletedLibraryIds (s : LocalStore) : list string :=
  deletedLibraryIds s.

(** Modelled from the spec: [addDeletedLibraryId(id)] adds to the
    tombstone set; an id already recorded is not recorded twice. *)
Definition addDeletedLibraryId (id : string) (s : LocalStore) : LocalStore :=
  mkStore (libraries s) (JsSet.add id (deletedLibraryIds s))
          (practiceProgress s) (progressWritable s).

(** Modelled from the spec: [loadPracticeProgress() -> Progress|null]. *)
Definition loadPracticeProgress (s : LocalStore) : option PracticeProgress :=
  practiceProgress s.

(** Modelled from the spec: [savePracticeProgress(Progress)]; [None]
    is the call throwing. *)
Definition savePracticeProgress (p : PracticeProgress) (s : LocalStore)
    : option LocalStore :=
  if progressWritable s
  then Some (mkStore (libraries s) (deletedLibraryIds s) (Some p) true)
  else None.

End Storage.

(** The Firestore document [users/{uid}/meta/profile].  What [snap.data()]
    returns is cast to [CloudProfile] unchecked, so the two list fields
    may hold anything: [NotArray] stands for every value on which
    [Array.isArray] is false ([undefined] included). *)
Module Firestore.

Inductive Field (A : Type) :=
| IsArray (xs : list A)
| NotArray.
Arguments IsArray {A} xs.
Arguments NotArray {A}.

Record Doc := mkDoc {
  libraries : Field VocabularyLibrary;
  deletedLibraryIds : Field string;
  practiceProgress : option PracticeProgress;
  updatedAt : option Z;
  _ts : option Z
}.

(** [Array.isArray(f) ? f : []] *)
Definition arrayOrEmpty {A : Type} (f : Field A) : list A :=
  match f with
  | IsArray xs => xs
  | NotArray => []
  end.

(** A thrown value as the [catch] block looks at it: [error.code] and
    [error.message]. *)
Record Error := mkError {
  code : option string;
  message : string
}.

End Firestore.

(** [interface CloudProfile] *)
Record CloudProfile := mkProfile {
  profile_libraries : list VocabularyLibrary;
  profile_deletedLibraryIds : list string;
  profile_practiceProgress : option PracticeProgress;
  profile_updatedAt : Z
}.

(** The lines written with [console.log], [console.warn] and
    [console.error] by [pullAndMerge] and [pushAll], in the order of the
    source. *)
Inductive LogEntry :=
| LogSyncStart (uid : string)
| LogNoRemoteData
| LogFirstSyncDone
| LogCounts (nLocal nLocalDeleted nRemote nRemoteDeleted : nat)
| LogMergeResult (nMerged : nat)
| LogSaveProgressFailed
| LogSyncDone
| LogSyncFailed (e : Firestore.Error)
| LogPushStart
| LogPushCount (n : nat)
| LogPushDone
| LogPushFailed (e : Firestore.Error).

(** Everything the orchestrator reads or writes. [getDocFault] and
    [setDocFault] are the failures the network or the security rules
    answer a request with, if any. *)
Record World := mkWorld {
  store : Storage.LocalStore;
  cloud : string -> option Firestore.Doc;
  clock : Z;
  serverClock : Z;
  getDocFault : option Firestore.Error;
  setDocFault : option Firestore.Error;
  console : list LogEntry
}.

(* ================================================================= *)
(** ** A state-and-exception monad for the orchestrator *)

Inductive Outcome (A : Type) :=
| Returned (a : A)
| Threw (e : Firestore.Error).
Arguments Returned {A} a.
Arguments Threw {A} e.

Definition Sync (A : Type) : Type := World -> Outcome A * World.

Definition ret {A : Type} (a : A) : Sync A := fun w => (Returned a, w).

Definition throw {A : Type} (e : Firestore.Error) : Sync A :=
  fun w => (Threw e, w).

Definition bind {A B : Type} (m : Sync A) (k : A -> Sync B) : Sync B :=
  fun w =>
    match m w with
    | (Returned a, w') => k a w'
    | (Threw e, w') => (Threw e, w')
    end.

(** [try { m } catch (e) { h e }]: what [m] wrote before it threw stays. *)
Definition try_catch {A : Type} (m : Sync A) (h : Firestore.Error -> Sync A)
    : Sync A :=
  fun w =>
    match m w with
    | (Returned a, w') => (Returned a, w')
    | (Threw e, w') => h e w'
    end.

Declare Scope sync_scope.
Delimit Scope sync_scope with sync.
Notation "x <- m ;; k" := (bind m (fun x => k))
  (at level 61, m at next level, right associativity) : sync_scope.
Notation "m ;; k" := (bind m (fun _ => k))
  (at level 61, right associativity) : sync_scope.

(** [xs.forEach(f)] *)
Fixpoint forEach {A : Type} (xs : list A) (f : A -> Sync unit) : Sync unit :=
  match xs with
  | [] => ret tt
  | x :: xs' => bind (f x) (fun _ => forEach xs' f)
  end.

Module Orchestrator.
Local Open Scope sync_scope.

Definition set_store (s : Storage.LocalStore) (w : World) : World :=
  mkWorld s (cloud w) (clock w) (serverClock w)
          (getDocFault w) (setDocFault w) (console w).

Definition set_cloud (c : string -> option Firestore.Doc) (w : World) : World :=
  mkWorld (store w) c (clock w) (serverClock w)
          (getDocFault w) (setDocFault w) (console w).

(** ** Primitive effects *)

Definition log (e : LogEntry) : Sync unit :=
  fun w => (Returned tt,
            mkWorld (store w) (cloud w) (clock w) (serverClock w)
                    (getDocFault w) (setDocFault w) (console w ++ [e])).

(** [Date.now()] *)
Definition dateNow : Sync Z := fun w => (Returned (clock w), w).

(** [await getDoc(profileRef(uid))]: [None] is [!snap.exists()]. *)
Definition getDoc (uid : string) : Sync (option Firestore.Doc) :=
  fun w =>
    match getDocFault w with
    | Some e => (Threw e, w)
    | None => (Returned (cloud w uid), w)
    end.

(** [await setDoc(profileRef(uid), { ...payload, _ts: serverTimestamp() })]:
    no merge option, the document is replaced. *)
Definition setDoc (uid : string) (payload : CloudProfile) : Sync unit :=
  fun w =>
    match setDocFault w with
    | Some e => (Threw e, w)
    | None =>
        let doc :=
          Firestore.mkDoc
            (Firestore.IsArray (profile_libraries payload))
            (Firestore.IsArray (profile_deletedLibraryIds payload))
            (profile_practiceProgress payload)
            (Some (profile_updatedAt payload))
            (Some (serverClock w)) in
        (Returned tt,
         set_cloud (fun u => if String.eqb u uid then Some doc else cloud w u) w)
    end.

Definition loadLibraries : Sync (list VocabularyLibrary) :=
  fun w => (Returned (Storage.loadLibraries (store w)), w).

Definition saveLibraries (libs : list VocabularyLibrary) : Sync unit :=
  fun w => (Returned tt, set_store (Storage.saveLibraries libs (store w)) w).

Definition getDeletedLibraryIds : Sync (list string) :=
  fun w => (Returned (Storage.getDeletedLibraryIds (store w)), w).

Definition addDeletedLibraryId (id : string) : Sync unit :=
  fun w => (Returned tt, set_store (Storage.addDeletedLibraryId id (store w)) w).

Definition loadPracticeProgress : Sync (option PracticeProgress) :=
  fun w => (Returned (Storage.loadPracticeProgress (store w)), w).

Definition savePracticeProgress (p : PracticeProgress) : Sync unit :=
  fun w =>
    match Storage.savePracticeProgress p (store w) with
    | Some s => (Returned tt, set_store s w)
    | None => (Threw (Firestore.mkError None "QuotaExceededError"), w)
    end.

(** ** [pullAndMerge] *)

(** The immediately invoked arrow function bound to [chooseProgress]. *)
Definition chooseProgress (remoteProgress localProgress : option PracticeProgress)
    : option PracticeProgress :=
  match remoteProgress, localProgress with
  | Some r, Some l =>
      if js_or (Some (timestamp r)) 0 >=? js_or (Some (timestamp l)) 0
      then Some r
      else Some l
  | Some r, None => Some r
  | None, Some l => Some l
  | None, None => None
  end.

(** The [catch] block: classify on [error.code] and throw a new [Error]
    with the message shown to the user. *)
Definition rethrow (prefix : string) (noPermission : string)
    (error : Firestore.Error) : Sync unit :=
  match Firestore.code error with
  | Some c =>
      if String.eqb c "permission-denied"
      then throw (Firestore.mkError None noPermission)
      else if String.eqb c "unavailable"
      then throw (Firestore.mkError None "网络连接失败，请检查网络连接")
      else throw (Firestore.mkError None
             (prefix ++ (if String.eqb (Firestore.message error) EmptyString
                         then "未知错误"
                         else Firestore.message error))%string)
  | None =>
      throw (Firestore.mkError None
             (prefix ++ (if String.eqb (Firestore.message error) EmptyString
                         then "未知错误"
                         else Firestore.message error))%string)
  end.

Definition pullAndMerge (uid : string) : Sync unit :=
  log (LogSyncStart uid) ;;
  try_catch
    (snap <- getDoc uid ;;
     localLibs <- loadLibraries ;;
     localProgress <- loadPracticeProgress ;;
     localDeletedIds <- getDeletedLibraryIds ;;
     match snap with
     | None =>
         log LogNoRemoteData ;;
         now <- dateNow ;;
         let payload := mkProfile localLibs localDeletedIds localProgress now in
         setDoc uid payload ;;
         log LogFirstSyncDone
     | Some data =>
         let remoteLibs := Firestore.arrayOrEmpty (Firestore.libraries data) in
         let remoteDeletedIds :=
           Firestore.arrayOrEmpty (Firestore.deletedLibraryIds data) in
         log (LogCounts (List.length localLibs) (List.length localDeletedIds)
                        (List.length remoteLibs) (List.length remoteDeletedIds)) ;;
         let r := CloudSync.smartMergeLibraries
                    localLibs remoteLibs localDeletedIds remoteDeletedIds in
         let merged := CloudSync.merged r in
         let finalDeletedIds := CloudSync.finalDeletedIds r in
         log (LogMergeResult (List.length merged)) ;;
         saveLibraries merged ;;
         forEach finalDeletedIds (fun id =>
           if negb (existsb (String.eqb id) localDeletedIds)
           then addDeletedLibraryId id
           else ret tt) ;;
         let remoteProgress := Firestore.practiceProgress data in
         let chosen := chooseProgress remoteProgress localProgress in
         match chosen with
         | Some p =>
             try_catch (savePracticeProgress p)
                       (fun _ => log LogSaveProgressFailed)
         | None => ret tt
         end ;;
         now <- dateNow ;;
         let payload := mkProfile merged finalDeletedIds chosen now in
         setDoc uid payload ;;
         log LogSyncDone
     end)
    (fun error =>
       log (LogSyncFailed error) ;;
       rethrow "同步失败: " "没有权限访问云端数据，请检查 Firestore 安全规则配置" error).

(** ** [pushAll] *)

Definition pushAll (uid : string) : Sync unit :=
  log LogPushStart ;;
  try_catch
    (libs <- loadLibraries ;;
     ids <- getDeletedLibraryIds ;;
     progress <- loadPracticeProgress ;;
     now <- dateNow ;;
     let payload := mkProfile libs ids progress now in
     log (LogPushCount (List.length (profile_libraries payload))) ;;
     setDoc uid payload ;;
     log LogPushDone)
    (fun error =>
       log (LogPushFailed error) ;;
       rethrow "推送失败: " "没有权限上传数据，请检查 Firestore 安全规则配置" error).

End Orchestrator.

(* ================================================================= *)
(** ** The orchestrator of the superseded module *)

(** [interface CloudProfile] of the superseded module: it has no
    [deletedLibraryIds]. *)
Record LegacyProfile := mkLegacyProfile {
  legacy_libraries : list VocabularyLibrary;
  legacy_practiceProgress : option PracticeProgress;
  legacy_updatedAt : Z
}.

Module LegacyOrchestrator.
Local Open Scope sync_scope.

(** [await setDoc(profileRef(uid), { ...payload, _ts: serverTimestamp() })]
    with a payload of the superseded shape: the document is replaced, so
    it is left without a [deletedLibraryIds] field. *)
Definition setDoc (uid : string) (payload : LegacyProfile) : Sync unit :=
  fun w =>
    match setDocFault w with
    | Some e => (Threw e, w)
    | None =>
        let doc :=
          Firestore.mkDoc
            (Firestore.IsArray (legacy_libraries payload))
            Firestore.NotArray
            (legacy_practiceProgress payload)
            (Some (legacy_updatedAt payload))
            (Some (serverClock w)) in
        (Returned tt,
         Orchestrator.set_cloud
           (fun u => if String.eqb u uid then Some doc else cloud w u) w)
    end.

(** The immediately invoked arrow function bound to [chooseProgress]. *)
Definition chooseProgress (remoteProgress localProgress : option PracticeProgress)
    : option PracticeProgress :=
  match remoteProgress, localProgress with
  | Some r, Some l =>
      if js_or (Some (timestamp r)) 0 >=? js_or (Some (timestamp l)) 0
      then Some r
      else Some l
  | Some r, None => Some r
  | None, Some l => Some l
  | None, None => None
  end.

(** No [try]/[catch] around the body here: what [getDoc] or [setDoc]
    throws goes to the caller as it is. *)
Definition pullAndMerge (uid : string) : Sync unit :=
  snap <- Orchestrator.getDoc uid ;;
  localLibs <- Orchestrator.loadLibraries ;;
  localProgress <- Orchestrator.loadPracticeProgress ;;
  match snap with
  | None =>
      now <- Orchestrator.dateNow ;;
      let payload := mkLegacyProfile localLibs localProgress now in
      setDoc uid payload
  | Some data =>
      let remoteLibs := Firestore.arrayOrEmpty (Firestore.libraries data) in
      let mergedLibs := LegacySync.mergeLibraries localLibs remoteLibs in
      Orchestrator.saveLibraries mergedLibs ;;
      let remoteProgress := Firestore.practiceProgress data in
      let chosen := chooseProgress remoteProgress localProgress in
      match chosen with
      | Some p =>
          try_catch (Orchestrator.savePracticeProgress p) (fun _ => ret tt)
      | None => ret tt
      end ;;
      now <- Orchestrator.dateNow ;;
      let payload := mkLegacyProfile mergedLibs chosen now in
      setDoc uid payload
  end.

Definition pushAll (uid : string) : Sync unit :=
  libs <- Orchestrator.loadLibraries ;;
  progress <- Orchestrator.loadPracticeProgress ;;
  now <- Orchestrator.dateNow ;;
  let payload := mkLegacyProfile libs progress now in
  setDoc uid payload.

End LegacyOrchestrator.

(* ================================================================= *)
(** ** The caller: [handleLibrariesChange] of [App] *)

Module App.

(** The timer table of the window: the timeouts set and not yet fired or
    cleared, each with the user id its callback closed over, and the
    handle the next [setTimeout] returns.  Handles are positive. *)
Record Timers := mkTimers {
  pending : list (nat * string);
  nextHandle : nat
}.

(** [window.setTimeout(() => { pushAll(user.uid).catch(() => { }); }, 1200)] *)
Definition setTimeout (uid : string) (t : Timers) : nat * Timers :=
  (nextHandle t,
   mkTimers (pending t ++ [(nextHandle t, uid)]) (S (nextHandle t))).

(** [window.clearTimeout(h)] *)
Definition clearTimeout (h : nat) (t : Timers) : Timers :=
  mkTimers (filter (fun p => negb (Nat.eqb (fst p) h)) (pending t))
           (nextHandle t).

(** What the component keeps: the [libraries] state, the [user] of
    [useAuth], the [pushTimerRef], around the world and the timer table. *)
Record State := mkState {
  world : World;
  libraries : list VocabularyLibrary;
  user : option string;
  pushTimerRef : option nat;
  timers : Timers
}.

Definition handleLibrariesChange (newLibraries : list VocabularyLibrary)
    (st : State) : State :=
  let w :=
    Orchestrator.set_store
      (Storage.saveLibraries newLibraries (store (world st))) (world st) in
  match user st with
  | Some uid =>
      let cleared :=
        match pushTimerRef st with
        | Some h => if Nat.eqb h 0 then timers st else clearTimeout h (timers st)
        | None => timers st
        end in
      let '(h, scheduled) := setTimeout uid cleared in
      mkState w newLibraries (user st) (Some h) scheduled
  | None =>
      mkState w newLibraries (user st) (pushTimerRef st) (timers st)
  end.

(** The timeout with handle [h] fires, if it is still pending: its
    callback runs [pushAll] and swallows what that throws. *)
Definition timerFires (h : nat) (st : State) : State :=
  match find (fun p => Nat.eqb (fst p) h) (pending (timers st)) with
  | Some (_, uid) =>
      mkState (snd (Orchestrator.pushAll uid (world st)))
              (libraries st) (user st) (pushTimerRef st)
              (clearTimeout h (timers st))
  | None => st
  end.

(** [useAuth] hands the component another [user]. *)
Definition authStateChanged (u : option string) (st : State) : State :=
  mkState (world st) (libraries st) u (pushTimerRef st) (timers st).

Inductive Event :=
| LibrariesChange (newLibraries : list VocabularyLibrary)
| TimerFires (h : nat)
| AuthStateChanged (u : option string).

Definition step (st : State) (ev : Event) : State :=
  match ev with
  | LibrariesChange newLibraries => handleLibrariesChange newLibraries st
  | TimerFires h => timerFires h st
  | AuthStateChanged u => authStateChanged u st
  end.

Definition run (events : list Event) (st : State) : State :=
  fold_left step events st.

(** The component when it mounts: no user yet, no timer set. *)
Definition initial (w : World) : State :=
  mkState w [] None None (mkTimers [] 1).

End App.

(* ================================================================= *)
(** ** Vocabulary of the statements *)

Definition hasId (i : string) (lib : VocabularyLibrary) : bool :=
  String.eqb (Lib.id lib) i.

(** The copies of library [i] in an array, in the order of the array. *)
Definition copiesOf (i : string) (libs : list VocabularyLibrary)
    : list VocabularyLibrary :=
  filter (hasId i) libs.

(** A map of libraries in which every entry sits under its own id and no
    key occurs twice. *)
Definition keyed_by_id (m : JsMap.t VocabularyLibrary) : Prop :=
  NoDup (JsMap.keys m) /\ forall k v, In (k, v) m -> Lib.id v = k.

(** No key of the map is a tombstone. *)
Definition clear_of (del : JsSet.t) (m : JsMap.t VocabularyLibrary) : Prop :=
  forall k, In k (JsMap.keys m) -> JsSet.has k del = false.

(** What [processLib] does to the slot of one id, seen on its own: the
    first copy fills it, a later copy replaces the holder only when its
    effective time is strictly greater. *)
Definition lastWriteWins (slot : option VocabularyLibrary)
    (lib : VocabularyLibrary) : option VocabularyLibrary :=
  match slot with
  | None => Some lib
  | Some existing =>
      if CloudSync.effectiveTime lib >? CloudSync.effectiveTime existing
      then Some lib
      else Some existing
  end.

(** A library is covered by a map when merging it in would change
    nothing: it is tombstoned, or the holder of its slot is at least as
    recent. *)
Definition covers (del : JsSet.t) (m : JsMap.t VocabularyLibrary)
    (lib : VocabularyLibrary) : Prop :=
  JsSet.has (Lib.id lib) del = true \/
  exists e, JsMap.get (Lib.id lib) m = Some e /\
            CloudSync.effectiveTime lib <= CloudSync.effectiveTime e.

(** The effective timestamp as the specification words it,
    [max(updatedAt, createdAt)]. *)
Definition specEffectiveTime (lib : VocabularyLibrary) : Z :=
  match Lib.updatedAt lib with
  | Some u => Z.max u (Lib.createdAt lib)
  | None => Lib.createdAt lib
  end.

(** The choice between a local and a remote copy as the specification
    words it: the strictly larger effective timestamp, the remote copy on
    a tie. *)
Definition specChoice (localCopy remoteCopy : VocabularyLibrary)
    : VocabularyLibrary :=
  if specEffectiveTime localCopy >? specEffectiveTime remoteCopy
  then localCopy
  else remoteCopy.

(** Sample libraries: two copies of ["a"] with equal [updatedAt], and a
    pair in which the local copy has the later [createdAt] and the remote
    copy the later [updatedAt]. *)
Definition tieLocal : VocabularyLibrary :=
  Lib.mk "a" "local" None [] 1 (Some 100).
Definition tieRemote : VocabularyLibrary :=
  Lib.mk "a" "remote" None [] 1 (Some 100).
Definition skewLocal : VocabularyLibrary :=
  Lib.mk "a" "local" None [] 500 (Some 100).
Definition skewRemote : VocabularyLibrary :=
  Lib.mk "a" "remote" None [] 1 (Some 200).

(** The Local Store after the [forEach] over [finalDeletedIds]. *)
Definition recordTombstones (localDeletedIds ids : list string)
    (s : Storage.LocalStore) : Storage.LocalStore :=
  fold_left
    (fun s id =>
       if negb (existsb (String.eqb id) localDeletedIds)
       then Storage.addDeletedLibraryId id s
       else s)
    ids s.

(** The Local Store after the guarded [savePracticeProgress]. *)
Definition persistProgress (chosen : option PracticeProgress)
    (s : Storage.LocalStore) : Storage.LocalStore :=
  match chosen with
  | Some p =>
      match Storage.savePracticeProgress p s with
      | Some s' => s'
      | None => s
      end
  | None => s
  end.

(** What the guarded [savePracticeProgress] leaves on the console. *)
Definition progressWarning (chosen : option PracticeProgress)
    (s : Storage.LocalStore) : list LogEntry :=
  match chosen with
  | Some p =>
      match Storage.savePracticeProgress p s with
      | Some _ => []
      | None => [LogSaveProgressFailed]
      end
  | None => []
  end.

(** The document [setDoc] leaves under a user's profile path. *)
Definition uploaded (payload : CloudProfile) (serverTime : Z) : Firestore.Doc :=
  Firestore.mkDoc
    (Firestore.IsArray (profile_libraries payload))
    (Firestore.IsArray (profile_deletedLibraryIds payload))
    (profile_practiceProgress payload)
    (Some (profile_updatedAt payload))
    (Some serverTime).

(** A sample world: one local library, a local progress snapshot, a
    reachable Firestore that holds the given document for user ["u1"] and
    nothing for anyone else. *)
Definition sampleWorld (remote : option Firestore.Doc) : World :=
  mkWorld
    (Storage.mkStore [Lib.mk "a" "A" None [] 1 (Some 10)] ["z"]
                     (Some (mkProgress "a" 3 100)) true)
    (fun u => if String.eqb u "u1" then remote else None)
    1700000000000 1700000000123 None None [].

(** The identity of an item for the item-union merge, as the
    specification has it: [(kind, text_target, text_native)]. *)
Definition tripleOf (it : VocabularyItem) : ItemType * string * string :=
  (Item.type it, Item.english it, Item.chinese it).

(** A text without the separator of [uniqueKeyOfItem]. *)
Fixpoint hashFree (s : string) : bool :=
  match s with
  | EmptyString => true
  | String c s' => negb (Ascii.eqb c "#") && hashFree s'
  end.

(** [existed.items] when the [for] loop of [pushLib] is through. *)
Definition unionItems (existedItems libItems : list VocabularyItem)
    : list VocabularyItem :=
  fst (fold_left LegacySync.pushItem libItems
         (existedItems,
          JsSet.of_list (map LegacySync.uniqueKeyOfItem existedItems))).

(** What [pushLib] does to the slot of one id, seen on its own. *)
Definition mergeInto (slot : option VocabularyLibrary) (lib : VocabularyLibrary)
    : option VocabularyLibrary :=
  match slot with
  | None => Some (Lib.with_items lib (Lib.items lib))
  | Some existed =>
      Some (Lib.with_items existed
              (js_sort LegacySync.byCreatedAtDesc
                 (unionItems (Lib.items existed) (Lib.items lib))))
  end.

(** Two libraries that agree on every field but [items]. *)
Definition sameFrame (x y : VocabularyLibrary) : Prop :=
  Lib.id x = Lib.id y /\ Lib.name x = Lib.name y /\
  Lib.category x = Lib.category y /\ Lib.createdAt x = Lib.createdAt y /\
  Lib.updatedAt x = Lib.updatedAt y.

(** [x] may stand before [y] in a list sorted by [createdAt] descending. *)
Definition newerFirst (x y : VocabularyItem) : Prop :=
  Item.createdAt y <= Item.createdAt x.

(** Sample data: a local library that holds the same word twice, and the
    remote copy of that library. *)
Definition appleOnce : VocabularyItem := Item.mk "i1" "苹果" "apple" word 20.
Definition appleAgain : VocabularyItem := Item.mk "i2" "苹果" "apple" word 10.
Definition pear : VocabularyItem := Item.mk "i3" "梨" "pear" word 30.
Definition fruitLocal : VocabularyLibrary :=
  Lib.mk "fruit" "Fruit" None [appleOnce; appleAgain] 5 (Some 50).
Definition fruitRemote : VocabularyLibrary :=
  Lib.mk "fruit" "Fruit (cloud)" (Some read_speak) [pear; appleAgain] 6 (Some 60).

(** Two items with different texts and the same [uniqueKeyOfItem]. *)
Definition hashLeft : VocabularyItem := Item.mk "h1" "c" "a#b" word 2.
Definition hashRight : VocabularyItem := Item.mk "h2" "b#c" "a" word 1.

(** [m] is the first of the copies [xs] with the greatest effective
    time: every copy before it is strictly older, none after it is newer. *)
Definition firstNewest (xs : list VocabularyLibrary) (m : VocabularyLibrary)
    : Prop :=
  exists pre post,
    xs = pre ++ m :: post
    /\ (forall x, In x pre ->
                  CloudSync.effectiveTime x < CloudSync.effectiveTime m)
    /\ (forall x, In x post ->
                  CloudSync.effectiveTime x <= CloudSync.effectiveTime m).

(** An array of libraries laid out as the map that holds each under its
    id. *)
Definition mapOf (libs : list VocabularyLibrary) : JsMap.t VocabularyLibrary :=
  map (fun lib => (Lib.id lib, lib)) libs.

(** The same world at a later moment: the two clocks read [t] and [s]. *)
Definition at_time (t s : Z) (w : World) : World :=
  mkWorld (store w) (cloud w) t s (getDocFault w) (setDocFault w) (console w).

(** The two messages [pullAndMerge] has of its own. *)
Definition syncFailedPrefix : string := "同步失败: ".
Definition syncNoPermission : string :=
  "没有权限访问云端数据，请检查 Firestore 安全规则配置".

(** The merge [pullAndMerge] runs on a Local Store and a remote
    document, the progress it chooses, and what it leaves in the Local
    Store and under the user's profile path when every step goes through. *)
Definition mergeOf (st : Storage.LocalStore) (data : Firestore.Doc)
    : CloudSync.MergeResult :=
  CloudSync.smartMergeLibraries
    (Storage.libraries st)
    (Firestore.arrayOrEmpty (Firestore.libraries data))
    (Storage.deletedLibraryIds st)
    (Firestore.arrayOrEmpty (Firestore.deletedLibraryIds data)).

Definition chosenOf (st : Storage.LocalStore) (data : Firestore.Doc)
    : option PracticeProgress :=
  Orchestrator.chooseProgress (Firestore.practiceProgress data)
                              (Storage.practiceProgress st).

Definition storeAfterSync (st : Storage.LocalStore) (data : Firestore.Doc)
    : Storage.LocalStore :=
  persistProgress (chosenOf st data)
    (recordTombstones (Storage.deletedLibraryIds st)
       (CloudSync.finalDeletedIds (mergeOf st data))
       (Storage.saveLibraries (CloudSync.merged (mergeOf st data)) st)).

Definition docAfterSync (st : Storage.LocalStore) (data : Firestore.Doc)
    (now serverTime : Z) : Firestore.Doc :=
  uploaded
    (mkProfile (CloudSync.merged (mergeOf st data))
               (CloudSync.finalDeletedIds (mergeOf st data))
               (chosenOf st data) now)
    serverTime.

(** A merged library accounts for the copies it was made of: each of
    its items is an item of one of them, and each item of each of them has
    an item with the same key in it. *)
Definition accountsFor (copies : list VocabularyLibrary)
    (v : VocabularyLibrary) : Prop :=
  (forall it, In it (Lib.items v) ->
              exists lib, In lib copies /\ In it (Lib.items lib))
  /\ (forall lib it, In lib copies -> In it (Lib.items lib) ->
        exists it', In it' (Lib.items v)
                    /\ LegacySync.uniqueKeyOfItem it'
                       = LegacySync.uniqueKeyOfItem it).

(** The timers of the component are in order: no timeout is pending,
    or one is, and it is the one [pushTimerRef] holds. *)
Definition timersInOrder (st : App.State) : Prop :=
  (1 <= App.nextHandle (App.timers st))%nat
  /\ (App.pending (App.timers st) = []
      \/ exists h uid,
           App.pending (App.timers st) = [(h, uid)]
           /\ App.pushTimerRef st = Some h
           /\ (1 <= h < App.nextHandle (App.timers st))%nat).

(* ================================================================= *)
(** * Properties *)

(** ** Facts about [JsSet] *)

Section JsSetFacts.

Lemma has_In (x : string) (s : JsSet.t) : JsSet.has x s = true <-> In x s.
Proof.
  unfold JsSet.has. rewrite existsb_exists. split.
  - intros [y [Hy Heq]]. apply String.eqb_eq in Heq. now subst.
  - intros H. exists x. split; [assumption | apply String.eqb_refl].
Qed.

Lemma has_false (x : string) (s : JsSet.t) : JsSet.has x s = false <-> ~ In x s.
Proof.
  rewrite <- has_In. destruct (JsSet.has x s); split; congruence.
Qed.

Lemma add_In (x y : string) (s : JsSet.t) :
  In y (JsSet.add x s) <-> y = x \/ In y s.
Proof.
  unfold JsSet.add. destruct (JsSet.has x s) eqn:E.
  - apply has_In in E. split; [now right | intros [->|H]; assumption].
  - rewrite in_app_iff. simpl. split.
    + intros [H|[H|[]]]; [now right | now left].
    + intros [H|H]; [right; left; now symmetry | now left].
Qed.

Lemma add_NoDup (x : string) (s : JsSet.t) : NoDup s -> NoDup (JsSet.add x s).
Proof.
  intros Hs. unfold JsSet.add. destruct (JsSet.has x s) eqn:E; [assumption|].
  apply has_false in E.
  apply NoDup_rev in Hs. rewrite <- (rev_involutive (s ++ [x])).
  apply NoDup_rev. rewrite rev_app_distr. simpl.
  constructor; [ now rewrite <- in_rev | assumption ].
Qed.

Lemma add_present (x : string) (s : JsSet.t) : In x s -> JsSet.add x s = s.
Proof.
  intros H. unfold JsSet.add. apply has_In in H. now rewrite H.
Qed.

Lemma add_absent (x : string) (s : JsSet.t) :
  ~ In x s -> JsSet.add x s = s ++ [x].
Proof.
  intros H. unfold JsSet.add. apply has_false in H. now rewrite H.
Qed.

Lemma add_all_In (xs : list string) :
  forall s y, In y (JsSet.add_all xs s) <-> In y xs \/ In y s.
Proof.
  induction xs as [|x xs IH]; intros s y; simpl.
  - tauto.
  - unfold JsSet.add_all in *. simpl. rewrite IH, add_In. intuition congruence.
Qed.

Lemma add_all_NoDup (xs : list string) :
  forall s, NoDup s -> NoDup (JsSet.add_all xs s).
Proof.
  induction xs as [|x xs IH]; intros s Hs; simpl; [assumption|].
  apply IH. now apply add_NoDup.
Qed.

(** Adding elements that are all there changes nothing. *)
Lemma add_all_absorb (xs : list string) (s : JsSet.t) :
  incl xs s -> JsSet.add_all xs s = s.
Proof.
  induction xs as [|x xs IH]; intros Hin; simpl; [reflexivity|].
  unfold JsSet.add_all in *. simpl.
  rewrite add_present by (apply Hin; now left).
  apply IH. intros y Hy. apply Hin. now right.
Qed.

(** Adding a duplicate-free run of new elements appends it. *)
Lemma add_all_fresh (xs : list string) :
  forall s, NoDup (s ++ xs) -> JsSet.add_all xs s = s ++ xs.
Proof.
  induction xs as [|x xs IH]; intros s Hnd; simpl.
  - now rewrite app_nil_r.
  - unfold JsSet.add_all in *. simpl.
    assert (Hx : ~ In x s).
    { intros Hin. apply NoDup_remove_2 in Hnd. apply Hnd.
      apply in_or_app. now left. }
    rewrite add_absent by assumption.
    rewrite IH; rewrite <- app_assoc; simpl; [reflexivity | assumption].
Qed.

Lemma of_list_In (xs : list string) (y : string) :
  In y (JsSet.of_list xs) <-> In y xs.
Proof.
  unfold JsSet.of_list.
  rewrite add_all_In. simpl. tauto.
Qed.

Lemma of_list_NoDup (xs : list string) : NoDup (JsSet.of_list xs).
Proof.
  apply (add_all_NoDup xs JsSet.empty). constructor.
Qed.

Lemma of_list_app (xs ys : list string) :
  JsSet.of_list (xs ++ ys) = JsSet.add_all ys (JsSet.of_list xs).
Proof.
  unfold JsSet.of_list, JsSet.add_all. apply fold_left_app.
Qed.

Lemma of_list_fixed (s : JsSet.t) : NoDup s -> JsSet.of_list s = s.
Proof.
  intros Hs. apply (add_all_fresh s []). exact Hs.
Qed.

End JsSetFacts.

(** ** Facts about [JsMap] *)

Section JsMapFacts.
Context {V : Type}.
Implicit Types (m : JsMap.t V) (k : string) (v : V).

Lemma get_set_same k v m : JsMap.get k (JsMap.set k v m) = Some v.
Proof.
  induction m as [|[k' v'] m IH]; simpl.
  - now rewrite String.eqb_refl.
  - destruct (String.eqb k k') eqn:E; simpl; rewrite ?String.eqb_refl, ?E; auto.
Qed.

Lemma get_set_other k k' v m :
  k <> k' -> JsMap.get k' (JsMap.set k v m) = JsMap.get k' m.
Proof.
  intros Hne. induction m as [|[k0 v0] m IH]; simpl.
  - apply not_eq_sym in Hne. apply String.eqb_neq in Hne. now rewrite Hne.
  - destruct (String.eqb k k0) eqn:E; simpl.
    + apply String.eqb_eq in E. subst k0.
      apply not_eq_sym in Hne. apply String.eqb_neq in Hne. now rewrite Hne.
    + now rewrite IH.
Qed.

Lemma set_absent k v m : JsMap.get k m = None -> JsMap.set k v m = m ++ [(k, v)].
Proof.
  induction m as [|[k' v'] m IH]; simpl; intros H; [reflexivity|].
  destruct (String.eqb k k'); [discriminate|]. now rewrite IH.
Qed.

Lemma keys_set_present k v v0 m :
  JsMap.get k m = Some v0 -> JsMap.keys (JsMap.set k v m) = JsMap.keys m.
Proof.
  induction m as [|[k' v'] m IH]; simpl; intros H; [discriminate|].
  destruct (String.eqb k k') eqn:E; simpl.
  - apply String.eqb_eq in E. now subst.
  - f_equal. now apply IH.
Qed.

Lemma get_None_keys k m : JsMap.get k m = None <-> ~ In k (JsMap.keys m).
Proof.
  induction m as [|[k' v'] m IH]; simpl; [tauto|].
  destruct (String.eqb k k') eqn:E.
  - apply String.eqb_eq in E. subst. split; [discriminate | intros H; exfalso; auto].
  - apply String.eqb_neq in E. rewrite IH. split.
    + intros H [H'|H']; [now apply E | now apply H].
    + intros H H'. apply H. now right.
Qed.

Lemma get_Some_keys k v m : JsMap.get k m = Some v -> In k (JsMap.keys m).
Proof.
  intros H. destruct (in_dec string_dec k (JsMap.keys m)) as [Hin|Hout];
    [assumption|]. apply get_None_keys in Hout. congruence.
Qed.

Lemma In_set k k' v v' m :
  In (k', v') (JsMap.set k v m) -> (k', v') = (k, v) \/ In (k', v') m.
Proof.
  induction m as [|[k0 v0] m IH]; simpl.
  - intros [H|[]]. now left.
  - destruct (String.eqb k k0); simpl.
    + intros [H|H]; [now left | now right; right].
    + intros [H|H]; [now right; left|]. destruct (IH H); auto.
Qed.

Lemma get_In k v m : JsMap.get k m = Some v -> In (k, v) m.
Proof.
  induction m as [|[k' v'] m IH]; simpl; [discriminate|].
  destruct (String.eqb k k') eqn:E.
  - apply String.eqb_eq in E. intros [= ->]. subst. now left.
  - intros H. right. now apply IH.
Qed.

Lemma In_get k v m : NoDup (JsMap.keys m) -> In (k, v) m -> JsMap.get k m = Some v.
Proof.
  induction m as [|[k' v'] m IH]; simpl; [tauto|].
  intros Hnd [H|H].
  - injection H as -> ->. now rewrite String.eqb_refl.
  - inversion Hnd as [|? ? Hk Hnd']; subst.
    destruct (String.eqb k k') eqn:E.
    + apply String.eqb_eq in E. subst k'. exfalso. apply Hk.
      change (In (fst (k, v)) (map fst m)). now apply in_map.
    + now apply IH.
Qed.

Lemma In_values v m : In v (JsMap.values m) <-> exists k, In (k, v) m.
Proof.
  unfold JsMap.values. rewrite in_map_iff. split.
  - intros [[k v'] [Heq Hin]]. simpl in Heq. subst. now exists k.
  - intros [k Hin]. now exists (k, v).
Qed.

End JsMapFacts.

(** ** The tombstone-aware merge, one [processLib] at a time *)

Section ProcessLib.
Variable del : JsSet.t.
Implicit Types (m : JsMap.t VocabularyLibrary) (lib : VocabularyLibrary).

Lemma NoDup_snoc {A : Type} (l : list A) (x : A) :
  NoDup l -> ~ In x l -> NoDup (l ++ [x]).
Proof.
  intros Hl Hx. rewrite <- (rev_involutive (l ++ [x])). apply NoDup_rev.
  rewrite rev_app_distr. simpl. constructor.
  - now rewrite <- in_rev.
  - now apply NoDup_rev.
Qed.

Lemma set_keyed m lib :
  keyed_by_id m -> keyed_by_id (JsMap.set (Lib.id lib) lib m).
Proof.
  intros [Hnd Hid]. split.
  - destruct (JsMap.get (Lib.id lib) m) as [e|] eqn:G.
    + now rewrite (keys_set_present _ _ _ _ G).
    + rewrite (set_absent _ _ _ G). unfold JsMap.keys. rewrite map_app. simpl.
      apply NoDup_snoc; [assumption | now apply get_None_keys].
  - intros k v Hin. apply In_set in Hin. destruct Hin as [[= -> ->]|Hin]; auto.
Qed.

Lemma processLib_keyed m lib :
  keyed_by_id m -> keyed_by_id (CloudSync.processLib del m lib).
Proof.
  intros H. unfold CloudSync.processLib.
  destruct (JsSet.has (Lib.id lib) del); [assumption|].
  destruct (JsMap.get (Lib.id lib) m) as [e|]; [|now apply set_keyed].
  destruct (_ >? _); [now apply set_keyed | assumption].
Qed.

Lemma set_clear m lib :
  JsSet.has (Lib.id lib) del = false ->
  clear_of del m -> clear_of del (JsMap.set (Lib.id lib) lib m).
Proof.
  intros Hlib H k Hk.
  destruct (JsMap.get (Lib.id lib) m) as [e|] eqn:G.
  - rewrite (keys_set_present _ _ _ _ G) in Hk. now apply H.
  - rewrite (set_absent _ _ _ G) in Hk. unfold JsMap.keys in Hk.
    rewrite map_app in Hk. apply in_app_or in Hk. simpl in Hk.
    destruct Hk as [Hk|[<-|[]]]; [now apply H | assumption].
Qed.

Lemma processLib_clear m lib :
  clear_of del m -> clear_of del (CloudSync.processLib del m lib).
Proof.
  intros H. unfold CloudSync.processLib.
  destruct (JsSet.has (Lib.id lib) del) eqn:D; [assumption|].
  destruct (JsMap.get (Lib.id lib) m) as [e|]; [|now apply set_clear].
  destruct (_ >? _); [now apply set_clear | assumption].
Qed.

(** The slot of id [i] after one [processLib]. *)
Lemma processLib_get m lib i :
  JsMap.get i (CloudSync.processLib del m lib) =
  if JsSet.has (Lib.id lib) del then JsMap.get i m
  else if hasId i lib then lastWriteWins (JsMap.get i m) lib
  else JsMap.get i m.
Proof.
  unfold CloudSync.processLib, hasId.
  destruct (JsSet.has (Lib.id lib) del); [reflexivity|].
  destruct (String.eqb (Lib.id lib) i) eqn:E.
  - apply String.eqb_eq in E. subst i. unfold lastWriteWins.
    destruct (JsMap.get (Lib.id lib) m) as [e|] eqn:G.
    + destruct (_ >? _); [apply get_set_same | assumption].
    + apply get_set_same.
  - apply String.eqb_neq in E.
    destruct (JsMap.get (Lib.id lib) m) as [e|] eqn:G.
    + destruct (_ >? _); [now apply get_set_other | reflexivity].
    + now apply get_set_other.
Qed.

Lemma fold_processLib_keyed libs :
  forall m, keyed_by_id m -> keyed_by_id (fold_left (CloudSync.processLib del) libs m).
Proof.
  induction libs as [|lib libs IH]; intros m H; simpl; [assumption|].
  apply IH. now apply processLib_keyed.
Qed.

Lemma fold_processLib_clear libs :
  forall m, clear_of del m -> clear_of del (fold_left (CloudSync.processLib del) libs m).
Proof.
  induction libs as [|lib libs IH]; intros m H; simpl; [assumption|].
  apply IH. now apply processLib_clear.
Qed.

(** The slot of a live id after a whole [forEach(processLib)]: the copies
    of that id, folded in order. *)
Lemma fold_processLib_get libs i :
  JsSet.has i del = false ->
  forall m,
    JsMap.get i (fold_left (CloudSync.processLib del) libs m) =
    fold_left lastWriteWins (copiesOf i libs) (JsMap.get i m).
Proof.
  intros Hi. unfold copiesOf.
  induction libs as [|lib libs IH]; intros m; simpl; [reflexivity|].
  rewrite IH, processLib_get.
  destruct (hasId i lib) eqn:E; simpl.
  - unfold hasId in E. apply String.eqb_eq in E. now rewrite E, Hi.
  - now destruct (JsSet.has (Lib.id lib) del).
Qed.

End ProcessLib.

Lemma empty_keyed : keyed_by_id JsMap.empty.
Proof. split; [constructor | intros k v []]. Qed.

Lemma empty_clear del : clear_of del JsMap.empty.
Proof. intros k []. Qed.

(** The map from which [smartMergeLibraries] reads its result. *)
Lemma merged_as_map localLibs remoteLibs localDeletedIds remoteDeletedIds :
  let del := JsSet.of_list (localDeletedIds ++ remoteDeletedIds) in
  let m := fold_left (CloudSync.processLib del) (localLibs ++ remoteLibs) JsMap.empty in
  CloudSync.merged
    (CloudSync.smartMergeLibraries localLibs remoteLibs localDeletedIds remoteDeletedIds)
  = JsMap.values m
  /\ keyed_by_id m /\ clear_of del m.
Proof.
  intros del m. split; [|split].
  - unfold CloudSync.smartMergeLibraries, m, del. simpl. now rewrite fold_left_app.
  - apply fold_processLib_keyed, empty_keyed.
  - apply fold_processLib_clear, empty_clear.
Qed.

(** In a map keyed by id, the values under one id are read off its slot. *)
Lemma copiesOf_values (m : JsMap.t VocabularyLibrary) (i : string) :
  keyed_by_id m ->
  copiesOf i (JsMap.values m) =
  match JsMap.get i m with Some v => [v] | None => [] end.
Proof.
  unfold keyed_by_id, copiesOf, hasId.
  induction m as [|[k v] m IH]; simpl; intros [Hnd Hid]; [reflexivity|].
  inversion Hnd as [|? ? Hk Hnd']; subst.
  assert (Hv : Lib.id v = k) by (apply Hid; now left).
  assert (IH' := IH (conj Hnd' (fun k' v' H => Hid k' v' (or_intror H)))).
  rewrite Hv. rewrite (String.eqb_sym i k).
  destruct (String.eqb k i) eqn:E.
  - apply String.eqb_eq in E. subst i. rewrite IH'.
    apply get_None_keys in Hk. now rewrite Hk.
  - exact IH'.
Qed.

(** ** Tombstones *)

(** C1 -- tombstone dominance: whatever the libraries on either side and
    whatever their [updatedAt]/[createdAt], no id in the union of the local
    and remote tombstones is the id of a library of the merged list. *)
Theorem tombstone_dominance
    (localLibs remoteLibs : list VocabularyLibrary)
    (localDeletedIds remoteDeletedIds : list string) (i : string) :
  In i (localDeletedIds ++ remoteDeletedIds) ->
  ~ In i (map Lib.id
            (CloudSync.merged
               (CloudSync.smartMergeLibraries
                  localLibs remoteLibs localDeletedIds remoteDeletedIds))).
Proof.
  intros Hi Hin.
  destruct (merged_as_map localLibs remoteLibs localDeletedIds remoteDeletedIds)
    as (Hm & [_ Hid] & Hclear).
  rewrite Hm in Hin. apply in_map_iff in Hin. destruct Hin as (lib & Hlib & Hin).
  apply In_values in Hin. destruct Hin as [k Hin].
  assert (Hk : Lib.id lib = k) by now apply Hid.
  assert (Hkeys : In k (JsMap.keys (fold_left
            (CloudSync.processLib (JsSet.of_list (localDeletedIds ++ remoteDeletedIds)))
            (localLibs ++ remoteLibs) JsMap.empty))).
  { change k with (fst (k, lib)). now apply in_map. }
  apply Hclear in Hkeys. apply has_false in Hkeys. apply Hkeys.
  apply of_list_In. congruence.
Qed.

Lemma tombstone_dominance_witness :
  In "b" ([] ++ ["b"]) /\
  ~ In "b" (map Lib.id
              (CloudSync.merged
                 (CloudSync.smartMergeLibraries
                    [Lib.mk "a" "A" None [] 1 (Some 10)]
                    [Lib.mk "a" "A" None [] 1 (Some 5);
                     Lib.mk "b" "B" None [] 1 (Some 1)]
                    [] ["b"]))).
Proof.
  split.
  - simpl. now left.
  - apply tombstone_dominance. simpl. now left.
Defined.

(** C5 -- tombstone union and monotonicity: the returned tombstones are,
    as a set, the union of the two inputs; each input is contained in
    them, and the returned array lists every id once. *)
Theorem tombstones_are_union
    (localLibs remoteLibs : list VocabularyLibrary)
    (localDeletedIds remoteDeletedIds : list string) :
  let final :=
    CloudSync.finalDeletedIds
      (CloudSync.smartMergeLibraries
         localLibs remoteLibs localDeletedIds remoteDeletedIds) in
  (forall i, In i final <-> In i localDeletedIds \/ In i remoteDeletedIds)
  /\ incl localDeletedIds final
  /\ incl remoteDeletedIds final
  /\ NoDup final.
Proof.
  simpl. unfold JsSet.to_list.
  assert (H : forall i, In i (JsSet.of_list (localDeletedIds ++ remoteDeletedIds))
                        <-> In i localDeletedIds \/ In i remoteDeletedIds).
  { intros i. rewrite of_list_In. apply in_app_iff. }
  repeat split.
  - apply H.
  - apply H.
  - intros i Hi. apply H. now left.
  - intros i Hi. apply H. now right.
  - apply of_list_NoDup.
Qed.

(** ** Last write wins *)

Lemma not_tombstoned (localDeletedIds remoteDeletedIds : list string) (i : string) :
  ~ In i (localDeletedIds ++ remoteDeletedIds) ->
  JsSet.has i (JsSet.of_list (localDeletedIds ++ remoteDeletedIds)) = false.
Proof.
  intros H. apply has_false. now rewrite of_list_In.
Qed.

(** The merged copies of a live id: all copies of both sides, local ones
    first, folded by [lastWriteWins]. *)
Lemma merged_copies
    (localLibs remoteLibs : list VocabularyLibrary)
    (localDeletedIds remoteDeletedIds : list string) (i : string) :
  ~ In i (localDeletedIds ++ remoteDeletedIds) ->
  copiesOf i (CloudSync.merged
                (CloudSync.smartMergeLibraries
                   localLibs remoteLibs localDeletedIds remoteDeletedIds))
  = match fold_left lastWriteWins
            (copiesOf i localLibs ++ copiesOf i remoteLibs) None with
    | Some v => [v]
    | None => []
    end.
Proof.
  intros Hi.
  destruct (merged_as_map localLibs remoteLibs localDeletedIds remoteDeletedIds)
    as (Hm & Hkeyed & _).
  rewrite Hm, (copiesOf_values _ _ Hkeyed).
  rewrite fold_processLib_get by now apply not_tombstoned.
  unfold copiesOf. now rewrite filter_app.
Qed.

(** One copy of a live id on each side: the remote copy replaces the
    local one exactly when its effective time is strictly greater. *)
Lemma merged_one_copy_each
    (localLibs remoteLibs : list VocabularyLibrary)
    (localDeletedIds remoteDeletedIds : list string)
    (i : string) (l r : VocabularyLibrary) :
  ~ In i (localDeletedIds ++ remoteDeletedIds) ->
  copiesOf i localLibs = [l] ->
  copiesOf i remoteLibs = [r] ->
  copiesOf i (CloudSync.merged
                (CloudSync.smartMergeLibraries
                   localLibs remoteLibs localDeletedIds remoteDeletedIds))
  = [if CloudSync.effectiveTime r >? CloudSync.effectiveTime l then r else l].
Proof.
  intros Hi Hl Hr. rewrite merged_copies by assumption.
  rewrite Hl, Hr. simpl. now destruct (_ >? _).
Qed.

(** C2, as the code has it -- for a live id with one copy on each side
    the merged list holds exactly one copy: the remote one when its
    effective time [updatedAt || createdAt || 0] is strictly greater than
    the local copy's, the local one otherwise (so also on a tie). *)
Theorem lww_shared_id
    (localLibs remoteLibs : list VocabularyLibrary)
    (localDeletedIds remoteDeletedIds : list string)
    (i : string) (l r : VocabularyLibrary) :
  ~ In i (localDeletedIds ++ remoteDeletedIds) ->
  copiesOf i localLibs = [l] ->
  copiesOf i remoteLibs = [r] ->
  copiesOf i (CloudSync.merged
                (CloudSync.smartMergeLibraries
                   localLibs remoteLibs localDeletedIds remoteDeletedIds))
  = [if CloudSync.effectiveTime r >? CloudSync.effectiveTime l then r else l].
Proof.
  apply merged_one_copy_each.
Qed.

Lemma lww_shared_id_witness :
  ~ In "a" ([] ++ ["b"]) /\
  copiesOf "a" [tieLocal] = [tieLocal] /\
  copiesOf "a" [tieRemote; Lib.mk "b" "B" None [] 1 (Some 1)] = [tieRemote] /\
  copiesOf "a" (CloudSync.merged
                  (CloudSync.smartMergeLibraries
                     [tieLocal] [tieRemote; Lib.mk "b" "B" None [] 1 (Some 1)]
                     [] ["b"]))
  = [if CloudSync.effectiveTime tieRemote >? CloudSync.effectiveTime tieLocal
     then tieRemote else tieLocal].
Proof.
  assert (H : ~ In "a" ([] ++ ["b"])).
  { simpl. intros [H|[]]. discriminate. }
  split; [exact H|]. split; [reflexivity|]. split; [reflexivity|].
  apply (lww_shared_id _ _ _ _ _ _ _ H); reflexivity.
Defined.

(** C2, as the specification words it, fails on the code twice over: on
    a tie the merged list keeps the local copy, not the remote one; and a
    copy is judged by [updatedAt] when it has one, not by the larger of
    [updatedAt] and [createdAt]. *)
Lemma lww_spec_wording_counterexample :
  (copiesOf "a" (CloudSync.merged
                   (CloudSync.smartMergeLibraries [tieLocal] [tieRemote] [] []))
   = [tieLocal]
   /\ specChoice tieLocal tieRemote = tieRemote
   /\ tieLocal <> tieRemote)
  /\
  (copiesOf "a" (CloudSync.merged
                   (CloudSync.smartMergeLibraries [skewLocal] [skewRemote] [] []))
   = [skewRemote]
   /\ specChoice skewLocal skewRemote = skewLocal
   /\ skewRemote <> skewLocal).
Proof.
  repeat split; try reflexivity; discriminate.
Qed.

(** C3 -- with one copy on each side of a live id, one with
    [updatedAt] 100 and the other with [updatedAt] 200, the merged list
    holds for that id exactly the copy with [updatedAt] 200, whichever
    side it came from. *)
Theorem lww_100_200
    (localLibs remoteLibs : list VocabularyLibrary)
    (localDeletedIds remoteDeletedIds : list string)
    (i : string) (l r : VocabularyLibrary) :
  ~ In i (localDeletedIds ++ remoteDeletedIds) ->
  copiesOf i localLibs = [l] ->
  copiesOf i remoteLibs = [r] ->
  (Lib.updatedAt l = Some 100 /\ Lib.updatedAt r = Some 200) \/
  (Lib.updatedAt l = Some 200 /\ Lib.updatedAt r = Some 100) ->
  exists w,
    copiesOf i (CloudSync.merged
                  (CloudSync.smartMergeLibraries
                     localLibs remoteLibs localDeletedIds remoteDeletedIds))
    = [w]
    /\ Lib.updatedAt w = Some 200
    /\ (Lib.updatedAt l = Some 200 -> w = l)
    /\ (Lib.updatedAt r = Some 200 -> w = r).
Proof.
  intros Hi Hl Hr Hu.
  rewrite (merged_one_copy_each _ _ _ _ _ _ _ Hi Hl Hr).
  unfold CloudSync.effectiveTime.
  destruct Hu as [[Ul Ur]|[Ul Ur]]; rewrite Ul, Ur; simpl.
  - exists r. repeat split; auto. congruence.
  - exists l. repeat split; auto. congruence.
Qed.

Lemma lww_100_200_witness :
  exists w,
    copiesOf "a" (CloudSync.merged
                    (CloudSync.smartMergeLibraries
                       [Lib.mk "a" "newer" None [] 7 (Some 200)]
                       [Lib.mk "a" "older" None [] 3 (Some 100)]
                       [] []))
    = [w]
    /\ Lib.updatedAt w = Some 200.
Proof.
  destruct (lww_100_200
              [Lib.mk "a" "newer" None [] 7 (Some 200)]
              [Lib.mk "a" "older" None [] 3 (Some 100)]
              [] [] "a"
              (Lib.mk "a" "newer" None [] 7 (Some 200))
              (Lib.mk "a" "older" None [] 3 (Some 100)))
    as (w & Hw & Hu & _).
  - simpl. tauto.
  - reflexivity.
  - reflexivity.
  - right. split; reflexivity.
  - exists w. split; assumption.
Defined.

(** ** Idempotence *)

Section Replay.
Variable del : JsSet.t.
Implicit Types (m : JsMap.t VocabularyLibrary) (lib : VocabularyLibrary).

(** Merging in a covered library is a no-op. *)
Lemma processLib_covered m lib :
  covers del m lib -> CloudSync.processLib del m lib = m.
Proof.
  unfold covers, CloudSync.processLib. intros [D|(e & G & Hle)].
  - now rewrite D.
  - destruct (JsSet.has (Lib.id lib) del); [reflexivity|].
    rewrite G. destruct (Z.gtb_spec (CloudSync.effectiveTime lib)
                                    (CloudSync.effectiveTime e)); [lia|reflexivity].
Qed.

Lemma fold_processLib_covered libs m :
  Forall (covers del m) libs -> fold_left (CloudSync.processLib del) libs m = m.
Proof.
  induction 1 as [|lib libs Hlib _ IH]; simpl; [reflexivity|].
  now rewrite processLib_covered.
Qed.

(** A library is covered once it has been merged in ... *)
Lemma processLib_covers_self m lib :
  covers del (CloudSync.processLib del m lib) lib.
Proof.
  unfold covers. destruct (JsSet.has (Lib.id lib) del) eqn:D; [now left|right].
  rewrite processLib_get, D. unfold hasId. rewrite String.eqb_refl.
  unfold lastWriteWins. destruct (JsMap.get (Lib.id lib) m) as [e|].
  - destruct (Z.gtb_spec (CloudSync.effectiveTime lib) (CloudSync.effectiveTime e)).
    + exists lib. split; [reflexivity | lia].
    + exists e. split; [reflexivity | lia].
  - exists lib. split; [reflexivity | lia].
Qed.

(** ... and stays covered whatever is merged in afterwards. *)
Lemma processLib_covers_mono m lib x :
  covers del m x -> covers del (CloudSync.processLib del m lib) x.
Proof.
  unfold covers. intros [D|(e & G & Hle)]; [now left|right].
  rewrite processLib_get, G.
  destruct (JsSet.has (Lib.id lib) del); [now exists e|].
  destruct (hasId (Lib.id x) lib); [|now exists e].
  unfold lastWriteWins.
  destruct (Z.gtb_spec (CloudSync.effectiveTime lib) (CloudSync.effectiveTime e)).
  - exists lib. split; [reflexivity | lia].
  - now exists e.
Qed.

Lemma fold_processLib_covers_mono libs :
  forall m x, covers del m x ->
              covers del (fold_left (CloudSync.processLib del) libs m) x.
Proof.
  induction libs as [|lib libs IH]; intros m x H; simpl; [assumption|].
  apply IH. now apply processLib_covers_mono.
Qed.

Lemma fold_processLib_covers_all libs :
  forall m, Forall (covers del (fold_left (CloudSync.processLib del) libs m)) libs.
Proof.
  induction libs as [|lib libs IH]; intros m; simpl; constructor.
  - apply fold_processLib_covers_mono, processLib_covers_self.
  - apply IH.
Qed.

(** Folding the values of a well-formed map back in rebuilds the map,
    entry by entry and in the same order. *)
Lemma fold_processLib_replay (m2 : JsMap.t VocabularyLibrary) :
  forall m1,
    keyed_by_id (m1 ++ m2) -> clear_of del (m1 ++ m2) ->
    fold_left (CloudSync.processLib del) (JsMap.values m2) m1 = m1 ++ m2.
Proof.
  induction m2 as [|[k v] m2 IH]; intros m1 Hkeyed Hclear; simpl.
  - now rewrite app_nil_r.
  - assert (Hv : Lib.id v = k).
    { apply (proj2 Hkeyed). apply in_or_app. right. now left. }
    assert (Hd : JsSet.has k del = false).
    { apply Hclear. unfold JsMap.keys. rewrite map_app. apply in_or_app.
      right. now left. }
    assert (Hg : JsMap.get k m1 = None).
    { apply get_None_keys. intros Hin. destruct Hkeyed as [Hnd _].
      unfold JsMap.keys in Hnd. rewrite map_app in Hnd. simpl in Hnd.
      apply NoDup_remove_2 in Hnd. apply Hnd. apply in_or_app. now left. }
    unfold CloudSync.processLib at 2. rewrite Hv, Hd, Hg.
    rewrite (set_absent _ _ _ Hg).
    replace (m1 ++ (k, v) :: m2) with ((m1 ++ [(k, v)]) ++ m2) in *
      by (rewrite <- app_assoc; reflexivity).
    now apply IH.
Qed.

End Replay.

(** C4 -- idempotence: merging the outcome of a merge, as the local
    side, with the same remote side again returns the same library list
    and the same tombstones. *)
Theorem merge_idempotent
    (localLibs remoteLibs : list VocabularyLibrary)
    (localDeletedIds remoteDeletedIds : list string) :
  let first :=
    CloudSync.smartMergeLibraries
      localLibs remoteLibs localDeletedIds remoteDeletedIds in
  let second :=
    CloudSync.smartMergeLibraries
      (CloudSync.merged first) remoteLibs
      (CloudSync.finalDeletedIds first) remoteDeletedIds in
  CloudSync.merged second = CloudSync.merged first /\
  CloudSync.finalDeletedIds second = CloudSync.finalDeletedIds first.
Proof.
  intros first second.
  set (del := JsSet.of_list (localDeletedIds ++ remoteDeletedIds)).
  assert (Hdel : JsSet.of_list (del ++ remoteDeletedIds) = del).
  { rewrite of_list_app, of_list_fixed by apply of_list_NoDup.
    apply add_all_absorb. intros i Hi. apply of_list_In.
    apply in_or_app. now right. }
  destruct (merged_as_map localLibs remoteLibs localDeletedIds remoteDeletedIds)
    as (Hm & Hkeyed & Hclear).
  fold del in Hm, Hkeyed, Hclear.
  set (m := fold_left (CloudSync.processLib del) (localLibs ++ remoteLibs)
                      JsMap.empty) in *.
  split.
  - destruct (merged_as_map (CloudSync.merged first) remoteLibs
                (CloudSync.finalDeletedIds first) remoteDeletedIds) as (Hm2 & _).
    unfold second. rewrite Hm2. fold first in Hm. rewrite Hm.
    change (CloudSync.finalDeletedIds first) with del. rewrite Hdel.
    f_equal. rewrite fold_left_app.
    rewrite (fold_processLib_replay del m JsMap.empty Hkeyed Hclear).
    simpl. apply fold_processLib_covered.
    assert (Hall := fold_processLib_covers_all del (localLibs ++ remoteLibs)
                      JsMap.empty).
    fold m in Hall. apply Forall_app in Hall. tauto.
  - unfold second. simpl. unfold JsSet.to_list. exact Hdel.
Qed.

(** ** The orchestrator *)

Section Runs.
Import Orchestrator.

Lemma set_store_same (w : World) : set_store (store w) w = w.
Proof. now destruct w. Qed.

Lemma set_store_twice (s s' : Storage.LocalStore) (w : World) :
  set_store s (set_store s' w) = set_store s w.
Proof. reflexivity. Qed.

(** The [forEach] over [finalDeletedIds] never throws and touches the
    Local Store only. *)
Lemma forEach_recordTombstones (localDeletedIds ids : list string) :
  forall w,
    forEach ids (fun id =>
      if negb (existsb (String.eqb id) localDeletedIds)
      then addDeletedLibraryId id
      else ret tt) w
    = (Returned tt,
       set_store (recordTombstones localDeletedIds ids (store w)) w).
Proof.
  unfold recordTombstones.
  induction ids as [|id ids IH]; intros w; simpl.
  - unfold ret. now rewrite set_store_same.
  - unfold bind.
    destruct (negb (existsb (String.eqb id) localDeletedIds)).
    + unfold addDeletedLibraryId. rewrite IH. reflexivity.
    + unfold ret. apply IH.
Qed.

(** The run of [pullAndMerge] on a reachable Firestore with no document
    for the user: the first-sync branch. *)
Lemma pullAndMerge_first_sync (uid : string) (w : World) :
  getDocFault w = None -> setDocFault w = None -> cloud w uid = None ->
  pullAndMerge uid w =
  (Returned tt,
   mkWorld (store w)
     (fun u =>
        if String.eqb u uid
        then Some (uploaded
                     (mkProfile (Storage.libraries (store w))
                                (Storage.deletedLibraryIds (store w))
                                (Storage.practiceProgress (store w))
                                (clock w))
                     (serverClock w))
        else cloud w u)
     (clock w) (serverClock w) None None
     (console w ++ [LogSyncStart uid; LogNoRemoteData; LogFirstSyncDone])).
Proof.
  destruct w as [st cl ck sck gf sf con]. simpl. intros -> -> Hc.
  unfold pullAndMerge, bind, try_catch, log, getDoc, loadLibraries,
    loadPracticeProgress, getDeletedLibraryIds, dateNow, setDoc, set_cloud.
  simpl. rewrite Hc. simpl. rewrite <- !app_assoc. reflexivity.
Qed.

Opaque CloudSync.smartMergeLibraries.

(** The run of [pullAndMerge] on a reachable Firestore that holds a
    document for the user: the merge branch. *)
Lemma pullAndMerge_merge (uid : string) (w : World) (data : Firestore.Doc) :
  getDocFault w = None -> setDocFault w = None -> cloud w uid = Some data ->
  let localLibs := Storage.libraries (store w) in
  let localDeletedIds := Storage.deletedLibraryIds (store w) in
  let localProgress := Storage.practiceProgress (store w) in
  let remoteLibs := Firestore.arrayOrEmpty (Firestore.libraries data) in
  let remoteDeletedIds :=
    Firestore.arrayOrEmpty (Firestore.deletedLibraryIds data) in
  let r := CloudSync.smartMergeLibraries
             localLibs remoteLibs localDeletedIds remoteDeletedIds in
  let chosen := chooseProgress (Firestore.practiceProgress data) localProgress in
  let s1 := recordTombstones localDeletedIds (CloudSync.finalDeletedIds r)
              (Storage.saveLibraries (CloudSync.merged r) (store w)) in
  pullAndMerge uid w =
  (Returned tt,
   mkWorld (persistProgress chosen s1)
     (fun u =>
        if String.eqb u uid
        then Some (uploaded
                     (mkProfile (CloudSync.merged r) (CloudSync.finalDeletedIds r)
                                chosen (clock w))
                     (serverClock w))
        else cloud w u)
     (clock w) (serverClock w) None None
     (console w
      ++ [LogSyncStart uid;
          LogCounts (List.length localLibs) (List.length localDeletedIds)
                    (List.length remoteLibs) (List.length remoteDeletedIds);
          LogMergeResult (List.length (CloudSync.merged r))]
      ++ progressWarning chosen s1
      ++ [LogSyncDone])).
Proof.
  destruct w as [st cl ck sck gf sf con]. simpl. intros -> -> Hc.
  unfold pullAndMerge.
  unfold bind at 1. unfold log at 1. simpl.
  unfold try_catch.
  unfold bind at 1. unfold getDoc at 1. simpl. rewrite Hc.
  unfold bind at 1. unfold loadLibraries at 1. simpl.
  unfold bind at 1. unfold loadPracticeProgress at 1. simpl.
  unfold bind at 1. unfold getDeletedLibraryIds at 1. simpl.
  unfold bind at 1. unfold log at 1. simpl.
  unfold bind at 1. unfold log at 1. simpl.
  unfold bind at 1. unfold saveLibraries at 1. simpl.
  unfold bind at 1. rewrite forEach_recordTombstones. simpl.
  unfold Storage.loadLibraries, Storage.loadPracticeProgress,
    Storage.getDeletedLibraryIds.
  set (r := CloudSync.smartMergeLibraries _ _ _ _).
  set (s1 := recordTombstones _ _ _).
  unfold bind at 1.
  destruct (chooseProgress (Firestore.practiceProgress data)
                           (Storage.practiceProgress st)) as [p|] eqn:Ch; simpl.
  - unfold savePracticeProgress, set_store. simpl.
    destruct (Storage.savePracticeProgress p s1) as [s2|] eqn:Sv; simpl.
    + unfold bind, dateNow, setDoc, log, set_cloud. simpl.
      rewrite <- !app_assoc. reflexivity.
    + unfold bind, dateNow, setDoc, log, set_cloud. simpl.
      rewrite <- !app_assoc. reflexivity.
  - unfold ret, bind, dateNow, setDoc, log, set_cloud. simpl.
    rewrite <- !app_assoc. reflexivity.
Qed.

Transparent CloudSync.smartMergeLibraries.

End Runs.

(** ** Progress resolution *)

Lemma js_or_zero (t : Z) : js_or (Some t) 0 = t.
Proof.
  unfold js_or. destruct (Z.eqb_spec t 0); congruence.
Qed.

(** [chooseProgress] case by case. *)
Lemma chooseProgress_cases (remoteProgress localProgress : option PracticeProgress) :
  Orchestrator.chooseProgress remoteProgress localProgress =
  match localProgress, remoteProgress with
  | Some l, Some r => Some (if timestamp l >? timestamp r then l else r)
  | Some l, None => Some l
  | None, Some r => Some r
  | None, None => None
  end.
Proof.
  destruct remoteProgress as [r|], localProgress as [l|];
    unfold Orchestrator.chooseProgress; try reflexivity.
  rewrite !js_or_zero.
  destruct (Z.geb_spec (timestamp r) (timestamp l)),
           (Z.gtb_spec (timestamp l) (timestamp r)); try lia; reflexivity.
Qed.

Lemma recordTombstones_progress (localDeletedIds ids : list string) :
  forall s,
    Storage.practiceProgress (recordTombstones localDeletedIds ids s)
    = Storage.practiceProgress s /\
    Storage.progressWritable (recordTombstones localDeletedIds ids s)
    = Storage.progressWritable s /\
    Storage.libraries (recordTombstones localDeletedIds ids s)
    = Storage.libraries s.
Proof.
  unfold recordTombstones.
  induction ids as [|id ids IH]; intros s; simpl; [auto|].
  destruct (negb (existsb (String.eqb id) localDeletedIds)); [|apply IH].
  destruct (IH (Storage.addDeletedLibraryId id s)) as (H1 & H2 & H3).
  rewrite H1, H2, H3. auto.
Qed.

Lemma persistProgress_libraries (chosen : option PracticeProgress)
    (s : Storage.LocalStore) :
  Storage.libraries (persistProgress chosen s) = Storage.libraries s.
Proof.
  unfold persistProgress, Storage.savePracticeProgress.
  destruct chosen as [p|]; [|reflexivity].
  now destruct (Storage.progressWritable s).
Qed.

(** C6 -- progress resolution in [pullAndMerge]: the progress uploaded
    (and, when the Local Store takes the write, stored) is one whole
    snapshot: of a local and a remote one the one with the larger
    [timestamp], the remote one when the two are equal; the only one
    when there is one; [null] when there is none. *)
Theorem progress_resolution (uid : string) (w : World) (data : Firestore.Doc) :
  getDocFault w = None -> setDocFault w = None -> cloud w uid = Some data ->
  exists w' d',
    Orchestrator.pullAndMerge uid w = (Returned tt, w') /\
    cloud w' uid = Some d' /\
    let localProgress := Storage.practiceProgress (store w) in
    let remoteProgress := Firestore.practiceProgress data in
    let resolved := Firestore.practiceProgress d' in
    (forall l r, localProgress = Some l -> remoteProgress = Some r ->
                 resolved = Some (if timestamp l >? timestamp r then l else r))
    /\ (forall l, localProgress = Some l -> remoteProgress = None ->
                  resolved = Some l)
    /\ (forall r, localProgress = None -> remoteProgress = Some r ->
                  resolved = Some r)
    /\ (localProgress = None -> remoteProgress = None -> resolved = None)
    /\ (Storage.progressWritable (store w) = true ->
        Storage.practiceProgress (store w') = resolved).
Proof.
  intros Hg Hs Hc.
  eexists. eexists. split; [apply (pullAndMerge_merge uid w data Hg Hs Hc)|].
  simpl. rewrite String.eqb_refl. split; [reflexivity|].
  unfold uploaded. simpl. rewrite chooseProgress_cases.
  repeat split.
  - intros l r -> ->. reflexivity.
  - intros l -> ->. reflexivity.
  - intros r -> ->. reflexivity.
  - intros -> ->. reflexivity.
  - intros Hw. unfold persistProgress, Storage.savePracticeProgress.
    match goal with
    | |- context [recordTombstones ?a ?b ?c] =>
        destruct (recordTombstones_progress a b c) as (Hp & Hpw & _)
    end.
    rewrite Hpw. simpl. rewrite Hw.
    destruct (Storage.practiceProgress (store w)) as [l|] eqn:El,
             (Firestore.practiceProgress data) as [r|] eqn:Er;
      simpl; try reflexivity.
    rewrite Hp. simpl. exact El.
Qed.

Lemma progress_resolution_witness :
  exists w' d',
    Orchestrator.pullAndMerge "u1"
      (sampleWorld
         (Some (Firestore.mkDoc (Firestore.IsArray []) (Firestore.IsArray [])
                                (Some (mkProgress "b" 0 100)) (Some 5) (Some 6))))
    = (Returned tt, w') /\
    cloud w' "u1" = Some d' /\
    Firestore.practiceProgress d' = Some (mkProgress "b" 0 100).
Proof.
  destruct (progress_resolution "u1"
              (sampleWorld
                 (Some (Firestore.mkDoc (Firestore.IsArray []) (Firestore.IsArray [])
                                        (Some (mkProgress "b" 0 100)) (Some 5) (Some 6))))
              (Firestore.mkDoc (Firestore.IsArray []) (Firestore.IsArray [])
                               (Some (mkProgress "b" 0 100)) (Some 5) (Some 6)))
    as (w' & d' & Hrun & Hdoc & Hboth & _).
  - reflexivity.
  - reflexivity.
  - reflexivity.
  - exists w', d'. split; [exact Hrun|]. split; [exact Hdoc|].
    apply (Hboth (mkProgress "a" 3 100) (mkProgress "b" 0 100)); reflexivity.
Defined.

(** ** Malformed remote documents *)

(** C7 -- a remote document whose [libraries] or [deletedLibraryIds]
    is not an array does not fail the sync: the field counts as the empty
    list, the merge runs on it, and [pullAndMerge] returns normally with
    the merged snapshot stored locally and uploaded. *)
Theorem malformed_remote_coerced (uid : string) (w : World) (data : Firestore.Doc) :
  getDocFault w = None -> setDocFault w = None -> cloud w uid = Some data ->
  Firestore.libraries data = Firestore.NotArray \/
  Firestore.deletedLibraryIds data = Firestore.NotArray ->
  exists remoteLibs remoteDeletedIds w',
    (Firestore.libraries data = Firestore.NotArray -> remoteLibs = [])
    /\ (forall xs, Firestore.libraries data = Firestore.IsArray xs ->
                   remoteLibs = xs)
    /\ (Firestore.deletedLibraryIds data = Firestore.NotArray ->
        remoteDeletedIds = [])
    /\ (forall xs, Firestore.deletedLibraryIds data = Firestore.IsArray xs ->
                   remoteDeletedIds = xs)
    /\ Orchestrator.pullAndMerge uid w = (Returned tt, w')
    /\ let r := CloudSync.smartMergeLibraries
                  (Storage.libraries (store w)) remoteLibs
                  (Storage.deletedLibraryIds (store w)) remoteDeletedIds in
       Storage.libraries (store w') = CloudSync.merged r
       /\ exists d',
            cloud w' uid = Some d'
            /\ Firestore.libraries d' = Firestore.IsArray (CloudSync.merged r)
            /\ Firestore.deletedLibraryIds d'
               = Firestore.IsArray (CloudSync.finalDeletedIds r).
Proof.
  intros Hg Hs Hc _.
  exists (Firestore.arrayOrEmpty (Firestore.libraries data)),
         (Firestore.arrayOrEmpty (Firestore.deletedLibraryIds data)).
  eexists. repeat split.
  - now intros ->.
  - now intros xs ->.
  - now intros ->.
  - now intros xs ->.
  - apply (pullAndMerge_merge uid w data Hg Hs Hc).
  - cbn [store]. rewrite persistProgress_libraries.
    match goal with
    | |- context [recordTombstones ?a ?b ?c] =>
        destruct (recordTombstones_progress a b c) as (_ & _ & Hl)
    end.
    rewrite Hl. reflexivity.
  - cbn [cloud]. rewrite String.eqb_refl. eexists. split; [reflexivity|].
    split; reflexivity.
Qed.

Lemma malformed_remote_coerced_witness :
  exists w',
    Orchestrator.pullAndMerge "u1"
      (sampleWorld
         (Some (Firestore.mkDoc Firestore.NotArray Firestore.NotArray
                                None None None)))
    = (Returned tt, w')
    /\ Storage.libraries (store w') = [Lib.mk "a" "A" None [] 1 (Some 10)].
Proof.
  destruct (malformed_remote_coerced "u1"
              (sampleWorld
                 (Some (Firestore.mkDoc Firestore.NotArray Firestore.NotArray
                                        None None None)))
              (Firestore.mkDoc Firestore.NotArray Firestore.NotArray
                               None None None))
    as (remoteLibs & remoteDeletedIds & w' & Hl & _ & Hd & _ & Hrun & Hstore & _).
  - reflexivity.
  - reflexivity.
  - reflexivity.
  - left. reflexivity.
  - exists w'. split; [exact Hrun|].
    rewrite Hstore, (Hl eq_refl), (Hd eq_refl). reflexivity.
Defined.

(** ** First sync *)

(** C8 -- first sync: with no remote document for the user,
    [pullAndMerge] returns normally having written one document, made of
    the local libraries, the local tombstones and the local progress as
    they are, with [updatedAt] the current time; the Local Store is as it
    was, other users' documents are as they were, and the console shows
    the first-sync lines only, no merge having run. *)
Theorem first_sync_upload (uid : string) (w : World) :
  getDocFault w = None -> setDocFault w = None -> cloud w uid = None ->
  exists w',
    Orchestrator.pullAndMerge uid w = (Returned tt, w')
    /\ cloud w' uid =
       Some (Firestore.mkDoc
               (Firestore.IsArray (Storage.libraries (store w)))
               (Firestore.IsArray (Storage.deletedLibraryIds (store w)))
               (Storage.practiceProgress (store w))
               (Some (clock w))
               (Some (serverClock w)))
    /\ store w' = store w
    /\ (forall u, u <> uid -> cloud w' u = cloud w u)
    /\ console w' =
       console w ++ [LogSyncStart uid; LogNoRemoteData; LogFirstSyncDone].
Proof.
  intros Hg Hs Hc. eexists.
  split; [apply (pullAndMerge_first_sync uid w Hg Hs Hc)|].
  cbn [cloud store console]. rewrite String.eqb_refl.
  repeat split.
  intros u Hu. apply String.eqb_neq in Hu. now rewrite Hu.
Qed.

Lemma first_sync_upload_witness :
  exists w',
    Orchestrator.pullAndMerge "u1" (sampleWorld None) = (Returned tt, w')
    /\ cloud w' "u1" =
       Some (Firestore.mkDoc
               (Firestore.IsArray [Lib.mk "a" "A" None [] 1 (Some 10)])
               (Firestore.IsArray ["z"])
               (Some (mkProgress "a" 3 100))
               (Some 1700000000000)
               (Some 1700000000123))
    /\ store w' = store (sampleWorld None).
Proof.
  destruct (first_sync_upload "u1" (sampleWorld None))
    as (w' & Hrun & Hdoc & Hstore & _).
  - reflexivity.
  - reflexivity.
  - reflexivity.
  - exists w'. split; [exact Hrun|]. split; [exact Hdoc | exact Hstore].
Defined.

(** ** [Array.prototype.sort] *)

Section SortFacts.
Context {A : Type} (cmp : A -> A -> Z).

Lemma sort_insert_perm (x : A) (l : list A) :
  Permutation (sort_insert cmp x l) (x :: l).
Proof.
  induction l as [|y l IH]; simpl; [reflexivity|].
  destruct (cmp x y <=? 0); [reflexivity|].
  rewrite IH. apply perm_swap.
Qed.

Lemma js_sort_perm (l : list A) : Permutation (js_sort cmp l) l.
Proof.
  induction l as [|x l IH]; simpl; [reflexivity|].
  rewrite sort_insert_perm. now constructor.
Qed.

(** With a comparator that decides a total preorder [R], the result is
    sorted with respect to [R]. *)
Variable R : A -> A -> Prop.
Hypothesis R_trans : forall x y z, R x y -> R y z -> R x z.
Hypothesis cmp_le : forall x y, (cmp x y <=? 0) = true -> R x y.
Hypothesis cmp_gt : forall x y, (cmp x y <=? 0) = false -> R y x.

Lemma sort_insert_sorted (x : A) (l : list A) :
  StronglySorted R l -> StronglySorted R (sort_insert cmp x l).
Proof.
  induction 1 as [|y l Hl IH Hy]; simpl.
  - repeat constructor.
  - destruct (cmp x y <=? 0) eqn:E.
    + constructor; [now constructor|].
      constructor; [now apply cmp_le|].
      eapply Forall_impl; [|exact Hy]. intros z Hz.
      eapply R_trans; [apply cmp_le|]; eassumption.
    + constructor; [assumption|].
      apply (Permutation_Forall (x := x :: l)).
      * symmetry. apply sort_insert_perm.
      * constructor; [now apply cmp_gt | assumption].
Qed.

Lemma js_sort_sorted (l : list A) : StronglySorted R (js_sort cmp l).
Proof.
  induction l as [|x l IH]; simpl; [constructor|].
  now apply sort_insert_sorted.
Qed.

End SortFacts.

Lemma sort_newerFirst (l : list VocabularyItem) :
  StronglySorted newerFirst (js_sort LegacySync.byCreatedAtDesc l).
Proof.
  apply js_sort_sorted; unfold newerFirst, LegacySync.byCreatedAtDesc.
  - intros x y z Hxy Hyz. lia.
  - intros x y H. rewrite !js_or_zero in H. apply Z.leb_le in H. lia.
  - intros x y H. rewrite !js_or_zero in H. apply Z.leb_gt in H. lia.
Qed.

(** ** [uniqueKeyOfItem] and the triple it is built from *)

Lemma split_at_hash (s1 : string) :
  forall s2 t1 t2,
    hashFree s1 = true -> hashFree s2 = true ->
    (s1 ++ "#" ++ t1 = s2 ++ "#" ++ t2)%string ->
    s1 = s2 /\ t1 = t2.
Proof.
  induction s1 as [|c s1 IH]; intros [|c' s2] t1 t2 H1 H2 Heq; simpl in *.
  - injection Heq as ->. auto.
  - injection Heq as <- _. discriminate.
  - injection Heq as -> _. discriminate.
  - injection Heq as -> Heq.
    apply andb_true_iff in H1, H2.
    destruct (IH s2 t1 t2 (proj2 H1) (proj2 H2) Heq) as [-> ->]. auto.
Qed.

Lemma key_of_triple (x y : VocabularyItem) :
  tripleOf x = tripleOf y ->
  LegacySync.uniqueKeyOfItem x = LegacySync.uniqueKeyOfItem y.
Proof.
  unfold tripleOf, LegacySync.uniqueKeyOfItem. intros [= -> -> ->]. reflexivity.
Qed.

(** On texts without [#] the key determines the triple. *)
Lemma triple_of_key (x y : VocabularyItem) :
  hashFree (Item.english x) = true -> hashFree (Item.english y) = true ->
  LegacySync.uniqueKeyOfItem x = LegacySync.uniqueKeyOfItem y ->
  tripleOf x = tripleOf y.
Proof.
  unfold tripleOf, LegacySync.uniqueKeyOfItem. intros Hx Hy Heq.
  apply split_at_hash in Heq.
  - destruct Heq as [Hty Heq]. apply split_at_hash in Heq; try assumption.
    destruct Heq as [-> ->].
    destruct (Item.type x), (Item.type y); try discriminate; reflexivity.
  - now destruct (Item.type x).
  - now destruct (Item.type y).
Qed.

(** ** The [for] loop of [pushLib] *)

Lemma NoDup_map_coarser {A B C : Type} (f : A -> B) (g : A -> C) (l : list A) :
  (forall x y, f x = f y -> g x = g y) ->
  NoDup (map g l) -> NoDup (map f l).
Proof.
  intros Hfg. induction l as [|x l IH]; simpl; intros H; [constructor|].
  inversion H as [|? ? Hx Hl]; subst. constructor; [|now apply IH].
  intros Hin. apply Hx. apply in_map_iff in Hin. destruct Hin as (y & Hy & Hin).
  apply in_map_iff. exists y. split; [|assumption]. symmetry. apply Hfg.
  now symmetry.
Qed.

(** The loop appends to [existed.items] a run [fresh] of items of
    [lib.items]: those whose key is not the key of an item already there,
    each key once. *)
Lemma pushItem_loop (ys : list VocabularyItem) :
  forall (its : list VocabularyItem) (seen : JsSet.t),
    (forall k, In k seen <-> In k (map LegacySync.uniqueKeyOfItem its)) ->
    exists fresh,
      fst (fold_left LegacySync.pushItem ys (its, seen)) = its ++ fresh
      /\ incl fresh ys
      /\ NoDup (map LegacySync.uniqueKeyOfItem fresh)
      /\ (forall f, In f fresh ->
                    ~ In (LegacySync.uniqueKeyOfItem f)
                         (map LegacySync.uniqueKeyOfItem its))
      /\ (forall y, In y ys ->
                    In (LegacySync.uniqueKeyOfItem y)
                       (map LegacySync.uniqueKeyOfItem (its ++ fresh))).
Proof.
  induction ys as [|y ys IH]; intros its seen Hinv; simpl.
  - exists []. rewrite app_nil_r. repeat split.
    + intros x [].
    + constructor.
    + intros f [].
    + intros x [].
  - destruct (JsSet.has (LegacySync.uniqueKeyOfItem y) seen) eqn:E; simpl.
    + destruct (IH its seen Hinv) as (fresh & Heq & Hincl & Hnd & Hnew & Hall).
      exists fresh. repeat split; try assumption.
      * now apply incl_tl.
      * intros y' [<-|Hy']; [|now apply Hall].
        rewrite map_app. apply in_or_app. left.
        apply Hinv. now apply has_In.
    + assert (Hinv' : forall k,
                 In k (JsSet.add (LegacySync.uniqueKeyOfItem y) seen) <->
                 In k (map LegacySync.uniqueKeyOfItem (its ++ [y]))).
      { intros k. rewrite add_In, map_app, in_app_iff, Hinv. simpl.
        intuition congruence. }
      destruct (IH _ _ Hinv') as (fresh & Heq & Hincl & Hnd & Hnew & Hall).
      apply has_false in E.
      exists (y :: fresh). rewrite Heq, <- app_assoc. simpl. repeat split.
      * intros x [<-|Hx]; [now left | right; now apply Hincl].
      * constructor; [|assumption].
        intros Hin. apply in_map_iff in Hin. destruct Hin as (f & Hf & Hin).
        apply (Hnew f Hin). rewrite Hf, map_app. apply in_or_app. right. now left.
      * intros f [<-|Hf].
        -- intros Hin. apply E. now apply Hinv.
        -- intros Hin. apply (Hnew f Hf). rewrite map_app. apply in_or_app.
           now left.
      * intros y' [<-|Hy'].
        -- rewrite map_app. apply in_or_app. right. now left.
        -- specialize (Hall y' Hy'). now rewrite <- app_assoc in Hall.
Qed.

Lemma unionItems_spec (xs ys : list VocabularyItem) :
  exists fresh,
    unionItems xs ys = xs ++ fresh
    /\ incl fresh ys
    /\ NoDup (map LegacySync.uniqueKeyOfItem fresh)
    /\ (forall f, In f fresh ->
                  ~ In (LegacySync.uniqueKeyOfItem f)
                       (map LegacySync.uniqueKeyOfItem xs))
    /\ (forall y, In y ys ->
                  In (LegacySync.uniqueKeyOfItem y)
                     (map LegacySync.uniqueKeyOfItem (xs ++ fresh))).
Proof.
  apply pushItem_loop. intros k. apply of_list_In.
Qed.

(** ** The item-union merge, one [pushLib] at a time *)

Section PushLib.
Implicit Types (m : JsMap.t VocabularyLibrary) (lib : VocabularyLibrary).

Lemma set_keyed_under (k : string) (v : VocabularyLibrary) m :
  Lib.id v = k -> keyed_by_id m -> keyed_by_id (JsMap.set k v m).
Proof.
  intros <- H. now apply set_keyed.
Qed.

Lemma pushLib_get m lib i :
  JsMap.get i (LegacySync.pushLib m lib) =
  if hasId i lib then mergeInto (JsMap.get i m) lib else JsMap.get i m.
Proof.
  unfold LegacySync.pushLib, hasId, mergeInto, unionItems.
  destruct (String.eqb (Lib.id lib) i) eqn:E.
  - apply String.eqb_eq in E. subst i.
    destruct (JsMap.get (Lib.id lib) m) as [existed|]; [|apply get_set_same].
    destruct (fold_left _ _ _) as [pushed seen]. simpl. apply get_set_same.
  - apply String.eqb_neq in E.
    destruct (JsMap.get (Lib.id lib) m) as [existed|];
      [|now apply get_set_other].
    destruct (fold_left _ _ _) as [pushed seen]. now apply get_set_other.
Qed.

Lemma pushLib_keyed m lib :
  keyed_by_id m -> keyed_by_id (LegacySync.pushLib m lib).
Proof.
  intros H. unfold LegacySync.pushLib.
  destruct (JsMap.get (Lib.id lib) m) as [existed|] eqn:G.
  - destruct (fold_left _ _ _) as [pushed seen].
    apply set_keyed_under; [|assumption]. simpl.
    apply (proj2 H). now apply get_In.
  - now apply set_keyed_under.
Qed.

Lemma fold_pushLib_keyed libs :
  forall m, keyed_by_id m -> keyed_by_id (fold_left LegacySync.pushLib libs m).
Proof.
  induction libs as [|lib libs IH]; intros m H; simpl; [assumption|].
  apply IH. now apply pushLib_keyed.
Qed.

Lemma fold_pushLib_get libs i :
  forall m,
    JsMap.get i (fold_left LegacySync.pushLib libs m) =
    fold_left mergeInto (copiesOf i libs) (JsMap.get i m).
Proof.
  unfold copiesOf.
  induction libs as [|lib libs IH]; intros m; simpl; [reflexivity|].
  rewrite IH, pushLib_get. now destruct (hasId i lib).
Qed.

(** No slot is ever emptied: every id pushed is a key from then on. *)
Lemma fold_mergeInto_some libs :
  forall slot, slot <> None -> fold_left mergeInto libs slot <> None.
Proof.
  induction libs as [|lib libs IH]; intros slot H; simpl; [assumption|].
  apply IH. now destruct slot.
Qed.

(** [pushLib] changes the [items] of a slot and nothing else of it. *)
Lemma fold_mergeInto_frame libs :
  forall e, exists v,
    fold_left mergeInto libs (Some e) = Some v /\ sameFrame v e.
Proof.
  induction libs as [|lib libs IH]; intros e; simpl.
  - exists e. unfold sameFrame. repeat split.
  - destruct (IH (Lib.with_items e
                    (js_sort LegacySync.byCreatedAtDesc
                       (unionItems (Lib.items e) (Lib.items lib)))))
      as (v & Hv & Hf).
    exists v. split; [assumption|]. unfold sameFrame in *. simpl in Hf. exact Hf.
Qed.

End PushLib.

(** The map from which [mergeLibraries] reads its result. *)
Lemma mergeLibraries_as_map (a b : list VocabularyLibrary) :
  let m := fold_left LegacySync.pushLib (a ++ b) JsMap.empty in
  LegacySync.mergeLibraries a b = JsMap.values m /\ keyed_by_id m.
Proof.
  intros m. split.
  - unfold LegacySync.mergeLibraries, m. now rewrite fold_left_app.
  - apply fold_pushLib_keyed, empty_keyed.
Qed.

Lemma mergeLibraries_copies (a b : list VocabularyLibrary) (i : string) :
  copiesOf i (LegacySync.mergeLibraries a b) =
  match fold_left mergeInto (copiesOf i a ++ copiesOf i b) None with
  | Some v => [v]
  | None => []
  end.
Proof.
  destruct (mergeLibraries_as_map a b) as [Hm Hkeyed].
  rewrite Hm, (copiesOf_values _ _ Hkeyed), fold_pushLib_get.
  unfold copiesOf. now rewrite filter_app.
Qed.

(** Every library of either input has its id in the result: the
    item-union merge has no way to drop a library. *)
Lemma mergeLibraries_keeps_ids (a b : list VocabularyLibrary)
    (lib : VocabularyLibrary) :
  In lib (a ++ b) -> In (Lib.id lib) (map Lib.id (LegacySync.mergeLibraries a b)).
Proof.
  intros Hin.
  assert (Hc : In lib (copiesOf (Lib.id lib) (a ++ b))).
  { apply filter_In. split; [assumption|]. unfold hasId. apply String.eqb_refl. }
  assert (Hcopies := mergeLibraries_copies a b (Lib.id lib)).
  unfold copiesOf in Hc, Hcopies at 2 3. rewrite <- filter_app in Hcopies.
  destruct (filter (hasId (Lib.id lib)) (a ++ b)) as [|c cs] eqn:F; [destruct Hc|].
  simpl in Hcopies.
  destruct (fold_left mergeInto cs (Some (Lib.with_items c (Lib.items c))))
    as [v|] eqn:Fv.
  - assert (Hv : In v (copiesOf (Lib.id lib) (LegacySync.mergeLibraries a b))).
    { rewrite Hcopies. now left. }
    apply filter_In in Hv. destruct Hv as [Hv Hid]. unfold hasId in Hid.
    apply String.eqb_eq in Hid. rewrite <- Hid. now apply in_map.
  - exfalso. revert Fv. now apply fold_mergeInto_some.
Qed.

(** ** The item-union merge *)

(** C9, as the code has it -- [mergeLibraries] has no tombstone input
    and keeps the id of every library it is given.  For an id with one
    copy on each side the result holds one library whose items are all the
    items of the local copy (its own duplicates included) and, of the
    remote copy's items, a run [fresh] that repeats no triple
    [(type, english, chinese)], neither of the local copy nor within
    itself; every remote item has its triple in the result as long as the
    English texts are free of the key separator [#]; the result is sorted
    by [createdAt] descending. *)
Theorem item_union (a b : list VocabularyLibrary) (i : string)
    (la lb : VocabularyLibrary) :
  copiesOf i a = [la] ->
  copiesOf i b = [lb] ->
  exists m fresh,
    copiesOf i (LegacySync.mergeLibraries a b) = [m]
    /\ Permutation (Lib.items m) (Lib.items la ++ fresh)
    /\ incl fresh (Lib.items lb)
    /\ NoDup (map tripleOf fresh)
    /\ (forall f x, In f fresh -> In x (Lib.items la) -> tripleOf f <> tripleOf x)
    /\ ((forall x, In x (Lib.items la ++ Lib.items lb) ->
                   hashFree (Item.english x) = true) ->
        forall y, In y (Lib.items lb) ->
                  exists u, In u (Lib.items m) /\ tripleOf u = tripleOf y)
    /\ (NoDup (map tripleOf (Lib.items la)) -> NoDup (map tripleOf (Lib.items m)))
    /\ StronglySorted newerFirst (Lib.items m)
    /\ (forall lib, In lib (a ++ b) ->
                    In (Lib.id lib) (map Lib.id (LegacySync.mergeLibraries a b))).
Proof.
  intros Hla Hlb.
  rewrite mergeLibraries_copies, Hla, Hlb. cbn [app fold_left mergeInto].
  cbn [Lib.with_items Lib.items].
  destruct (unionItems_spec (Lib.items la) (Lib.items lb))
    as (fresh & Heq & Hincl & Hnd & Hnew & Hall).
  assert (Hperm : Permutation
                    (js_sort LegacySync.byCreatedAtDesc
                       (unionItems (Lib.items la) (Lib.items lb)))
                    (Lib.items la ++ fresh)).
  { rewrite <- Heq. apply js_sort_perm. }
  assert (Hfresh : NoDup (map tripleOf fresh)).
  { revert Hnd. apply NoDup_map_coarser. intros x y H. symmetry.
    apply key_of_triple. now symmetry. }
  assert (Hapart : forall f x, In f fresh -> In x (Lib.items la) ->
                               tripleOf f <> tripleOf x).
  { intros f x Hf Hx Ht. apply (Hnew f Hf).
    rewrite (key_of_triple _ _ Ht). now apply in_map. }
  eexists. exists fresh. split; [reflexivity|]. cbn [Lib.items].
  split; [exact Hperm|]. split; [exact Hincl|]. split; [exact Hfresh|].
  split; [exact Hapart|]. split; [|split; [|split]].
  - intros Hfree y Hy. specialize (Hall y Hy).
    apply in_map_iff in Hall. destruct Hall as (u & Hu & Hin).
    exists u. split.
    + apply (Permutation_in u (Permutation_sym Hperm) Hin).
    + apply triple_of_key; [| |assumption].
      * apply Hfree. apply in_app_or in Hin. apply in_or_app.
        destruct Hin as [Hin|Hin]; [now left | right; now apply Hincl].
      * apply Hfree. apply in_or_app. now right.
  - intros Hlocal.
    apply (Permutation_NoDup (l := map tripleOf (Lib.items la ++ fresh))).
    + apply Permutation_map. now symmetry.
    + rewrite map_app. apply NoDup_app; [assumption | assumption |].
      intros t Hl Hf. apply in_map_iff in Hl, Hf.
      destruct Hl as (x & Hx & Hxin), Hf as (f & Hf & Hfin).
      apply (Hapart f x Hfin Hxin). congruence.
  - apply sort_newerFirst.
  - apply mergeLibraries_keeps_ids.
Qed.

Lemma item_union_witness :
  exists m,
    copiesOf "fruit" (LegacySync.mergeLibraries [fruitLocal] [fruitRemote]) = [m]
    /\ StronglySorted newerFirst (Lib.items m).
Proof.
  destruct (item_union [fruitLocal] [fruitRemote] "fruit" fruitLocal fruitRemote)
    as (m & fresh & Hm & _ & _ & _ & _ & _ & _ & Hsorted & _).
  - reflexivity.
  - reflexivity.
  - exists m. split; assumption.
Defined.

(** C9, as the specification words it, fails on the code: a triple that
    the local copy holds twice is still there twice after the union. *)
Lemma item_union_duplicates_counterexample :
  copiesOf "fruit" (LegacySync.mergeLibraries [fruitLocal] [fruitRemote])
  = [Lib.with_items fruitLocal [pear; appleOnce; appleAgain]]
  /\ ~ NoDup (map tripleOf [pear; appleOnce; appleAgain]).
Proof.
  split; [reflexivity|].
  intros H. inversion H as [|? ? _ H']; subst.
  inversion H' as [|? ? Hin _]; subst. apply Hin. now left.
Qed.

(** The key is a concatenation, so two different triples may share it
    when a text holds a [#]; the second of the two is then dropped as if it
    were a duplicate. *)
Example key_collision :
  tripleOf hashLeft <> tripleOf hashRight
  /\ LegacySync.uniqueKeyOfItem hashLeft = LegacySync.uniqueKeyOfItem hashRight
  /\ LegacySync.mergeLibraries
       [Lib.mk "l" "L" None [hashLeft] 1 None]
       [Lib.mk "l" "L" None [hashRight] 1 None]
     = [Lib.mk "l" "L" None [hashLeft] 1 None].
Proof.
  split; [discriminate|]. split; reflexivity.
Qed.

(** C10 -- the frame of the item-union merge: for an id present in both
    inputs the result holds one library, and its [id], [name],
    [category], [createdAt] and [updatedAt] are those of the local copy
    (the first one, should there be several), whatever the timestamps of
    either side; the union touches [items] only. *)
Theorem union_keeps_local_frame (a b : list VocabularyLibrary) (i : string)
    (la : VocabularyLibrary) (restA : list VocabularyLibrary) :
  copiesOf i a = la :: restA ->
  copiesOf i b <> [] ->
  exists m,
    copiesOf i (LegacySync.mergeLibraries a b) = [m]
    /\ Lib.id m = Lib.id la
    /\ Lib.name m = Lib.name la
    /\ Lib.category m = Lib.category la
    /\ Lib.createdAt m = Lib.createdAt la
    /\ Lib.updatedAt m = Lib.updatedAt la.
Proof.
  intros Ha _. rewrite mergeLibraries_copies, Ha. cbn [app fold_left mergeInto].
  destruct (fold_mergeInto_frame (restA ++ copiesOf i b)
              (Lib.with_items la (Lib.items la))) as (v & Hv & Hf).
  exists v. split; [|exact Hf].
  match goal with
  | |- match ?slot with _ => _ end = _ =>
      replace slot with (Some v) by (symmetry; exact Hv)
  end.
  reflexivity.
Qed.

Lemma union_keeps_local_frame_witness :
  exists m,
    copiesOf "fruit" (LegacySync.mergeLibraries [fruitLocal] [fruitRemote]) = [m]
    /\ Lib.name m = "Fruit"
    /\ Lib.category m = None
    /\ Lib.createdAt m = 5
    /\ Lib.updatedAt m = Some 50.
Proof.
  destruct (union_keeps_local_frame [fruitLocal] [fruitRemote] "fruit"
              fruitLocal [])
    as (m & Hm & _ & Hn & Hc & Hcr & Hu).
  - reflexivity.
  - simpl. discriminate.
  - exists m. repeat split; assumption.
Defined.

(* ================================================================= *)
(** * Further properties of the tombstone-aware merge *)

(** ** The ids of the result and their order *)

Lemma keys_set {V : Type} (k : string) (v : V) (m : JsMap.t V) :
  JsMap.keys (JsMap.set k v m) = JsSet.add k (JsMap.keys m).
Proof.
  unfold JsSet.add, JsSet.has.
  induction m as [|[k' v'] m IH]; simpl; [reflexivity|].
  destruct (String.eqb k k') eqn:E; simpl.
  - apply String.eqb_eq in E. now subst.
  - rewrite IH. now destruct (existsb (String.eqb k) (JsMap.keys m)).
Qed.

Lemma keys_processLib (del : JsSet.t) (m : JsMap.t VocabularyLibrary)
    (lib : VocabularyLibrary) :
  JsMap.keys (CloudSync.processLib del m lib) =
  if JsSet.has (Lib.id lib) del then JsMap.keys m
  else JsSet.add (Lib.id lib) (JsMap.keys m).
Proof.
  unfold CloudSync.processLib.
  destruct (JsSet.has (Lib.id lib) del); [reflexivity|].
  destruct (JsMap.get (Lib.id lib) m) as [e|] eqn:G; [|apply keys_set].
  destruct (_ >? _); [apply keys_set|].
  symmetry. apply add_present. eapply get_Some_keys. eassumption.
Qed.

Lemma keys_fold_processLib (del : JsSet.t) (libs : list VocabularyLibrary) :
  forall m,
    JsMap.keys (fold_left (CloudSync.processLib del) libs m) =
    JsSet.add_all
      (filter (fun i => negb (JsSet.has i del)) (map Lib.id libs))
      (JsMap.keys m).
Proof.
  induction libs as [|lib libs IH]; intros m; simpl; [reflexivity|].
  rewrite IH, keys_processLib.
  now destruct (JsSet.has (Lib.id lib) del).
Qed.

Lemma ids_of_values (m : JsMap.t VocabularyLibrary) :
  keyed_by_id m -> map Lib.id (JsMap.values m) = JsMap.keys m.
Proof.
  intros [_ Hid]. unfold JsMap.values, JsMap.keys. rewrite map_map.
  apply map_ext_in. intros [k v] Hin. simpl. now apply Hid.
Qed.

Lemma has_of_list (xs : list string) (i : string) :
  JsSet.has i (JsSet.of_list xs) = JsSet.has i xs.
Proof.
  destruct (JsSet.has i xs) eqn:E.
  - apply has_In. apply of_list_In. now apply has_In.
  - apply has_false. rewrite of_list_In. now apply has_false.
Qed.

(** X1 -- the ids of the merged list, in its order: the ids of the local
    libraries followed by those of the remote ones, tombstoned ids left
    out, each id at its first occurrence only. *)
Theorem merged_ids_in_order
    (localLibs remoteLibs : list VocabularyLibrary)
    (localDeletedIds remoteDeletedIds : list string) :
  map Lib.id
    (CloudSync.merged
       (CloudSync.smartMergeLibraries
          localLibs remoteLibs localDeletedIds remoteDeletedIds))
  = JsSet.of_list
      (filter (fun i => negb (JsSet.has i (localDeletedIds ++ remoteDeletedIds)))
              (map Lib.id (localLibs ++ remoteLibs))).
Proof.
  destruct (merged_as_map localLibs remoteLibs localDeletedIds remoteDeletedIds)
    as (Hm & Hkeyed & _).
  rewrite Hm, (ids_of_values _ Hkeyed), keys_fold_processLib.
  unfold JsSet.of_list. f_equal. apply filter_ext. intros i.
  f_equal. apply has_of_list.
Qed.

(** ** Nothing invented, nothing twice *)

Lemma processLib_values_from (del : JsSet.t) (P : VocabularyLibrary -> Prop)
    (m : JsMap.t VocabularyLibrary) (lib : VocabularyLibrary) :
  P lib -> Forall P (JsMap.values m) ->
  Forall P (JsMap.values (CloudSync.processLib del m lib)).
Proof.
  intros Hlib Hm.
  assert (Hset : Forall P (JsMap.values (JsMap.set (Lib.id lib) lib m))).
  { apply Forall_forall. intros v Hv. apply In_values in Hv.
    destruct Hv as [k Hin]. apply In_set in Hin.
    destruct Hin as [[= _ ->]|Hin]; [assumption|].
    rewrite Forall_forall in Hm. apply Hm. apply In_values. now exists k. }
  unfold CloudSync.processLib.
  destruct (JsSet.has (Lib.id lib) del); [assumption|].
  destruct (JsMap.get (Lib.id lib) m); [|assumption].
  now destruct (_ >? _).
Qed.

Lemma fold_processLib_values_from (del : JsSet.t)
    (all libs : list VocabularyLibrary) :
  incl libs all ->
  forall m,
    Forall (fun v => In v all) (JsMap.values m) ->
    Forall (fun v => In v all)
           (JsMap.values (fold_left (CloudSync.processLib del) libs m)).
Proof.
  induction libs as [|lib libs IH]; intros Hincl m Hm; simpl; [assumption|].
  apply IH.
  - intros x Hx. apply Hincl. now right.
  - apply processLib_values_from; [|assumption]. apply Hincl. now left.
Qed.

(** X2 -- the merged list is made of input libraries only, each taken
    whole, and holds no id twice. *)
Theorem merged_from_inputs
    (localLibs remoteLibs : list VocabularyLibrary)
    (localDeletedIds remoteDeletedIds : list string) :
  let merged :=
    CloudSync.merged
      (CloudSync.smartMergeLibraries
         localLibs remoteLibs localDeletedIds remoteDeletedIds) in
  (forall lib, In lib merged -> In lib localLibs \/ In lib remoteLibs)
  /\ NoDup (map Lib.id merged).
Proof.
  intros merged.
  destruct (merged_as_map localLibs remoteLibs localDeletedIds remoteDeletedIds)
    as (Hm & Hkeyed & _).
  fold merged in Hm. split.
  - intros lib Hin. rewrite Hm in Hin. apply in_app_or.
    revert lib Hin. apply Forall_forall.
    apply fold_processLib_values_from; [apply incl_refl | constructor].
  - rewrite Hm, (ids_of_values _ Hkeyed). exact (proj1 Hkeyed).
Qed.

(** ** Any number of copies *)

Lemma firstNewest_skip (e x : VocabularyLibrary) (xs : list VocabularyLibrary)
    (m : VocabularyLibrary) :
  CloudSync.effectiveTime x <= CloudSync.effectiveTime e ->
  firstNewest (e :: xs) m -> firstNewest (e :: x :: xs) m.
Proof.
  intros Hle (pre & post & Heq & Hpre & Hpost).
  destruct pre as [|p pre]; simpl in Heq; injection Heq as -> ->.
  - exists [], (x :: post). repeat split.
    + intros y [].
    + intros y [<-|Hy]; [assumption | now apply Hpost].
  - exists (p :: x :: pre), post. repeat split.
    + intros y [<-|[<-|Hy]].
      * apply Hpre. now left.
      * assert (CloudSync.effectiveTime p < CloudSync.effectiveTime m)
          by (apply Hpre; now left). lia.
      * apply Hpre. now right.
    + exact Hpost.
Qed.

Lemma firstNewest_replace (e x : VocabularyLibrary) (xs : list VocabularyLibrary)
    (m : VocabularyLibrary) :
  CloudSync.effectiveTime e < CloudSync.effectiveTime x ->
  firstNewest (x :: xs) m -> firstNewest (e :: x :: xs) m.
Proof.
  intros Hlt (pre & post & Heq & Hpre & Hpost).
  exists (e :: pre), post. repeat split.
  - simpl. now rewrite Heq.
  - intros y [<-|Hy]; [|now apply Hpre].
    destruct pre as [|p pre]; simpl in Heq; injection Heq as -> ->.
    + assumption.
    + assert (CloudSync.effectiveTime p < CloudSync.effectiveTime m)
        by (apply Hpre; now left). lia.
  - exact Hpost.
Qed.

Lemma fold_lastWriteWins_firstNewest (xs : list VocabularyLibrary) :
  forall e, exists m,
    fold_left lastWriteWins xs (Some e) = Some m /\ firstNewest (e :: xs) m.
Proof.
  induction xs as [|x xs IH]; intros e; simpl.
  - exists e. split; [reflexivity|]. exists [], []. repeat split; intros y [].
  - destruct (Z.gtb_spec (CloudSync.effectiveTime x) (CloudSync.effectiveTime e))
      as [Hgt|Hle].
    + destruct (IH x) as (m & Hm & Hfirst). exists m. split; [assumption|].
      now apply firstNewest_replace.
    + destruct (IH e) as (m & Hm & Hfirst). exists m. split; [assumption|].
      now apply firstNewest_skip.
Qed.

(** X3 -- last write wins among any number of copies: for a live id
    with a copy on either side, the merged list holds for it exactly one
    library, the first of the copies (local ones before remote ones) with
    the greatest effective time [updatedAt || createdAt || 0]. *)
Theorem merged_is_first_newest
    (localLibs remoteLibs : list VocabularyLibrary)
    (localDeletedIds remoteDeletedIds : list string) (i : string) :
  ~ In i (localDeletedIds ++ remoteDeletedIds) ->
  copiesOf i localLibs ++ copiesOf i remoteLibs <> [] ->
  exists m,
    copiesOf i (CloudSync.merged
                  (CloudSync.smartMergeLibraries
                     localLibs remoteLibs localDeletedIds remoteDeletedIds))
    = [m]
    /\ firstNewest (copiesOf i localLibs ++ copiesOf i remoteLibs) m.
Proof.
  intros Hi Hne. rewrite merged_copies by assumption.
  destruct (copiesOf i localLibs ++ copiesOf i remoteLibs) as [|x xs];
    [congruence|].
  simpl. destruct (fold_lastWriteWins_firstNewest xs x) as (m & Hm & Hfirst).
  exists m. split; [|assumption].
  match goal with
  | |- match ?slot with _ => _ end = _ =>
      replace slot with (Some m) by (symmetry; exact Hm)
  end.
  reflexivity.
Qed.

Lemma merged_is_first_newest_witness :
  exists m,
    copiesOf "a" (CloudSync.merged
                    (CloudSync.smartMergeLibraries
                       [tieLocal; skewLocal] [skewRemote; tieRemote] [] []))
    = [m]
    /\ firstNewest (copiesOf "a" [tieLocal; skewLocal]
                    ++ copiesOf "a" [skewRemote; tieRemote]) m.
Proof.
  apply merged_is_first_newest.
  - simpl. tauto.
  - simpl. discriminate.
Defined.

(** X4 -- a live id with a copy on one side only: that copy is in the
    merged list as it is. *)
Theorem one_sided_taken_as_is
    (localLibs remoteLibs : list VocabularyLibrary)
    (localDeletedIds remoteDeletedIds : list string)
    (i : string) (x : VocabularyLibrary) :
  ~ In i (localDeletedIds ++ remoteDeletedIds) ->
  (copiesOf i localLibs = [x] /\ copiesOf i remoteLibs = []) \/
  (copiesOf i localLibs = [] /\ copiesOf i remoteLibs = [x]) ->
  copiesOf i (CloudSync.merged
                (CloudSync.smartMergeLibraries
                   localLibs remoteLibs localDeletedIds remoteDeletedIds))
  = [x].
Proof.
  intros Hi Hside. rewrite merged_copies by assumption.
  destruct Hside as [[-> ->]|[-> ->]]; reflexivity.
Qed.

Lemma one_sided_taken_as_is_witness :
  copiesOf "b" (CloudSync.merged
                  (CloudSync.smartMergeLibraries
                     [tieLocal] [Lib.mk "b" "B" None [appleOnce] 1 None]
                     ["c"] []))
  = [Lib.mk "b" "B" None [appleOnce] 1 None].
Proof.
  apply one_sided_taken_as_is.
  - simpl. intros [H|[]]. discriminate.
  - right. split; reflexivity.
Defined.

(** ** Merges that change nothing *)

Lemma values_mapOf (libs : list VocabularyLibrary) :
  JsMap.values (mapOf libs) = libs.
Proof.
  unfold JsMap.values, mapOf. rewrite map_map. simpl. apply map_id.
Qed.

Lemma keys_mapOf (libs : list VocabularyLibrary) :
  JsMap.keys (mapOf libs) = map Lib.id libs.
Proof.
  unfold JsMap.keys, mapOf. rewrite map_map. reflexivity.
Qed.

Lemma mapOf_keyed (libs : list VocabularyLibrary) :
  NoDup (map Lib.id libs) -> keyed_by_id (mapOf libs).
Proof.
  intros Hnd. split.
  - now rewrite keys_mapOf.
  - intros k v Hin. unfold mapOf in Hin. apply in_map_iff in Hin.
    destruct Hin as (lib & [= <- <-] & _). reflexivity.
Qed.

(** A duplicate-free array of live libraries goes through [processLib]
    unchanged. *)
Lemma fold_processLib_wellformed (del : JsSet.t) (libs : list VocabularyLibrary) :
  NoDup (map Lib.id libs) ->
  (forall lib, In lib libs -> JsSet.has (Lib.id lib) del = false) ->
  fold_left (CloudSync.processLib del) libs JsMap.empty = mapOf libs.
Proof.
  intros Hnd Hlive.
  rewrite <- (values_mapOf libs) at 1.
  apply (fold_processLib_replay del (mapOf libs) JsMap.empty).
  - now apply mapOf_keyed.
  - intros k Hk. simpl in Hk. rewrite keys_mapOf in Hk.
    apply in_map_iff in Hk. destruct Hk as (lib & <- & Hin). now apply Hlive.
Qed.

Lemma nothing_new_in_map (del : JsSet.t)
    (localLibs remoteLibs : list VocabularyLibrary) :
  NoDup (map Lib.id localLibs) ->
  (forall l, In l localLibs -> JsSet.has (Lib.id l) del = false) ->
  (forall r, In r remoteLibs ->
     JsSet.has (Lib.id r) del = true \/
     exists l, In l localLibs /\ Lib.id l = Lib.id r /\
               CloudSync.effectiveTime r <= CloudSync.effectiveTime l) ->
  JsMap.values
    (fold_left (CloudSync.processLib del) remoteLibs
       (fold_left (CloudSync.processLib del) localLibs JsMap.empty))
  = localLibs.
Proof.
  intros Hnd Hlive Hold.
  rewrite (fold_processLib_wellformed del localLibs Hnd Hlive).
  rewrite fold_processLib_covered; [apply values_mapOf|].
  apply Forall_forall. intros r Hr.
  destruct (Hold r Hr) as [Hdel|(l & Hl & Hid & Hle)]; [now left|right].
  exists l. split; [|assumption]. rewrite <- Hid.
  apply In_get; [exact (proj1 (mapOf_keyed _ Hnd))|].
  unfold mapOf. apply in_map_iff. now exists l.
Qed.

(** X5 -- a merge with nothing new to bring in returns the local list
    unchanged: when the local libraries have distinct ids, none of them
    tombstoned, and every remote library is tombstoned or has a local copy
    at least as recent, the merged list is the local list, in its order.
    Merging with an empty remote list, or with a copy of the local list,
    are instances. *)
Theorem merge_nothing_new
    (localLibs remoteLibs : list VocabularyLibrary)
    (localDeletedIds remoteDeletedIds : list string) :
  NoDup (map Lib.id localLibs) ->
  (forall l, In l localLibs ->
             ~ In (Lib.id l) (localDeletedIds ++ remoteDeletedIds)) ->
  (forall r, In r remoteLibs ->
     In (Lib.id r) (localDeletedIds ++ remoteDeletedIds) \/
     exists l, In l localLibs /\ Lib.id l = Lib.id r /\
               CloudSync.effectiveTime r <= CloudSync.effectiveTime l) ->
  CloudSync.merged
    (CloudSync.smartMergeLibraries
       localLibs remoteLibs localDeletedIds remoteDeletedIds)
  = localLibs.
Proof.
  intros Hnd Hlive Hold.
  unfold CloudSync.smartMergeLibraries. cbn [CloudSync.merged].
  apply nothing_new_in_map; [assumption| |].
  - intros l Hl. now apply not_tombstoned, Hlive.
  - intros r Hr. destruct (Hold r Hr) as [Hdel|H]; [left|now right].
    apply has_In. now apply of_list_In.
Qed.

Lemma merge_nothing_new_witness :
  CloudSync.merged
    (CloudSync.smartMergeLibraries
       [skewRemote; Lib.mk "b" "B" None [] 1 None]
       [tieRemote; Lib.mk "c" "C" None [] 9 (Some 9)]
       [] ["c"])
  = [skewRemote; Lib.mk "b" "B" None [] 1 None].
Proof.
  apply merge_nothing_new.
  - simpl. repeat constructor; simpl; intuition discriminate.
  - simpl. intros l [<-|[<-|[]]]; simpl; intuition discriminate.
  - intros r [<-|[<-|[]]].
    + right. exists skewRemote. split; [now left|]. split; [reflexivity|].
      vm_compute. discriminate.
    + left. simpl. now left.
Defined.

(* ================================================================= *)
(** * Further properties of the orchestrator *)

Section FaultyRuns.
Import Orchestrator.

(** What the [catch] block throws, by [error.code]. *)
Lemma rethrow_throws (prefix noPermission : string) (e : Firestore.Error)
    (w : World) :
  exists err,
    rethrow prefix noPermission e w = (Threw err, w)
    /\ Firestore.code err = None
    /\ (Firestore.code e = Some "permission-denied" ->
        Firestore.message err = noPermission)
    /\ (Firestore.code e = Some "unavailable" ->
        Firestore.message err = "网络连接失败，请检查网络连接")
    /\ (Firestore.code e <> Some "permission-denied" ->
        Firestore.code e <> Some "unavailable" ->
        Firestore.message err =
        (prefix ++ (if String.eqb (Firestore.message e) EmptyString
                    then "未知错误"
                    else Firestore.message e))%string).
Proof.
  unfold rethrow. destruct (Firestore.code e) as [c|] eqn:C.
  - destruct (String.eqb c "permission-denied") eqn:E1.
    + apply String.eqb_eq in E1. subst c. eexists. split; [reflexivity|].
      repeat split; try reflexivity; try discriminate. congruence.
    + destruct (String.eqb c "unavailable") eqn:E2.
      * apply String.eqb_eq in E2. subst c. eexists. split; [reflexivity|].
        repeat split; try reflexivity; try discriminate. congruence.
      * apply String.eqb_neq in E1, E2. eexists. split; [reflexivity|].
        repeat split; try reflexivity; intros [= H]; congruence.
  - eexists. split; [reflexivity|]. repeat split; try reflexivity; discriminate.
Qed.

(** The run of [pullAndMerge] when the fetch fails. *)
Lemma pullAndMerge_fetch_fault (uid : string) (w : World) (e : Firestore.Error) :
  getDocFault w = Some e ->
  pullAndMerge uid w =
  rethrow syncFailedPrefix syncNoPermission e
    (mkWorld (store w) (cloud w) (clock w) (serverClock w)
             (getDocFault w) (setDocFault w)
             (console w ++ [LogSyncStart uid; LogSyncFailed e])).
Proof.
  destruct w as [st cl ck sck gf sf con]. simpl. intros ->.
  unfold pullAndMerge, bind, try_catch, log, getDoc. simpl.
  rewrite <- !app_assoc. reflexivity.
Qed.

(** The run of [pullAndMerge] when there is no remote document and the
    upload fails. *)
Lemma pullAndMerge_first_sync_fault (uid : string) (w : World)
    (e : Firestore.Error) :
  getDocFault w = None -> setDocFault w = Some e -> cloud w uid = None ->
  pullAndMerge uid w =
  rethrow syncFailedPrefix syncNoPermission e
    (mkWorld (store w) (cloud w) (clock w) (serverClock w)
             (getDocFault w) (setDocFault w)
             (console w ++ [LogSyncStart uid; LogNoRemoteData; LogSyncFailed e])).
Proof.
  destruct w as [st cl ck sck gf sf con]. simpl. intros -> -> Hc.
  unfold pullAndMerge, bind, try_catch, log, getDoc, loadLibraries,
    loadPracticeProgress, getDeletedLibraryIds, dateNow, setDoc.
  simpl. rewrite Hc. simpl. rewrite <- !app_assoc. reflexivity.
Qed.

Opaque CloudSync.smartMergeLibraries.

(** The run of [pullAndMerge] when the merge is done and the upload
    fails. *)
Lemma pullAndMerge_merge_fault (uid : string) (w : World)
    (data : Firestore.Doc) (e : Firestore.Error) :
  getDocFault w = None -> setDocFault w = Some e -> cloud w uid = Some data ->
  let localLibs := Storage.libraries (store w) in
  let localDeletedIds := Storage.deletedLibraryIds (store w) in
  let localProgress := Storage.practiceProgress (store w) in
  let remoteLibs := Firestore.arrayOrEmpty (Firestore.libraries data) in
  let remoteDeletedIds :=
    Firestore.arrayOrEmpty (Firestore.deletedLibraryIds data) in
  let r := CloudSync.smartMergeLibraries
             localLibs remoteLibs localDeletedIds remoteDeletedIds in
  let chosen := chooseProgress (Firestore.practiceProgress data) localProgress in
  let s1 := recordTombstones localDeletedIds (CloudSync.finalDeletedIds r)
              (Storage.saveLibraries (CloudSync.merged r) (store w)) in
  pullAndMerge uid w =
  rethrow syncFailedPrefix syncNoPermission e
    (mkWorld (persistProgress chosen s1) (cloud w) (clock w) (serverClock w)
       (getDocFault w) (setDocFault w)
       (console w
        ++ [LogSyncStart uid;
            LogCounts (List.length localLibs) (List.length localDeletedIds)
                      (List.length remoteLibs) (List.length remoteDeletedIds);
            LogMergeResult (List.length (CloudSync.merged r))]
        ++ progressWarning chosen s1
        ++ [LogSyncFailed e])).
Proof.
  destruct w as [st cl ck sck gf sf con]. simpl. intros -> -> Hc.
  unfold pullAndMerge.
  unfold bind at 1. unfold log at 1. simpl.
  unfold try_catch.
  unfold bind at 1. unfold getDoc at 1. simpl. rewrite Hc.
  unfold bind at 1. unfold loadLibraries at 1. simpl.
  unfold bind at 1. unfold loadPracticeProgress at 1. simpl.
  unfold bind at 1. unfold getDeletedLibraryIds at 1. simpl.
  unfold bind at 1. unfold log at 1. simpl.
  unfold bind at 1. unfold log at 1. simpl.
  unfold bind at 1. unfold saveLibraries at 1. simpl.
  unfold bind at 1. rewrite forEach_recordTombstones. simpl.
  unfold Storage.loadLibraries, Storage.loadPracticeProgress,
    Storage.getDeletedLibraryIds.
  set (r := CloudSync.smartMergeLibraries _ _ _ _).
  set (s1 := recordTombstones _ _ _).
  unfold bind at 1.
  destruct (chooseProgress (Firestore.practiceProgress data)
                           (Storage.practiceProgress st)) as [p|] eqn:Ch; simpl.
  - unfold savePracticeProgress, set_store. simpl.
    destruct (Storage.savePracticeProgress p s1) as [s2|] eqn:Sv; simpl.
    + unfold bind, dateNow, setDoc, log. simpl.
      rewrite <- !app_assoc. reflexivity.
    + unfold bind, dateNow, setDoc, log. simpl.
      rewrite <- !app_assoc. reflexivity.
  - unfold ret, bind, dateNow, setDoc, log. simpl.
    rewrite <- !app_assoc. reflexivity.
Qed.

Transparent CloudSync.smartMergeLibraries.

End FaultyRuns.

(** ** Failures of [pullAndMerge] *)

(** X6 -- when the fetch of the remote document fails, [pullAndMerge]
    throws, and neither the Local Store nor any Firestore document has
    changed. *)
Theorem fetch_failure_changes_nothing (uid : string) (w : World)
    (e : Firestore.Error) :
  getDocFault w = Some e ->
  exists err w',
    Orchestrator.pullAndMerge uid w = (Threw err, w')
    /\ store w' = store w
    /\ cloud w' = cloud w.
Proof.
  intros Hg. rewrite (pullAndMerge_fetch_fault uid w e Hg).
  destruct (rethrow_throws syncFailedPrefix syncNoPermission e
              (mkWorld (store w) (cloud w) (clock w) (serverClock w)
                 (getDocFault w) (setDocFault w)
                 (console w ++ [LogSyncStart uid; LogSyncFailed e])))
    as (err & Hr & _).
  rewrite Hr. eexists. eexists. split; [reflexivity|]. split; reflexivity.
Qed.

Lemma fetch_failure_changes_nothing_witness :
  exists err w',
    Orchestrator.pullAndMerge "u1"
      (mkWorld (store (sampleWorld None)) (cloud (sampleWorld None)) 5 6
               (Some (Firestore.mkError (Some "unavailable") "offline")) None [])
    = (Threw err, w')
    /\ store w' = store (sampleWorld None)
    /\ cloud w' = cloud (sampleWorld None).
Proof.
  apply (fetch_failure_changes_nothing "u1"
           (mkWorld (store (sampleWorld None)) (cloud (sampleWorld None)) 5 6
              (Some (Firestore.mkError (Some "unavailable") "offline")) None [])
           (Firestore.mkError (Some "unavailable") "offline")).
  reflexivity.
Defined.

(** X7 -- no rollback: when the remote document was fetched and merged
    and only the upload fails, [pullAndMerge] throws with the merged
    libraries already saved in the Local Store and the remote documents
    as they were. *)
Theorem upload_failure_keeps_local_merge (uid : string) (w : World)
    (data : Firestore.Doc) (e : Firestore.Error) :
  getDocFault w = None -> setDocFault w = Some e -> cloud w uid = Some data ->
  exists err w',
    Orchestrator.pullAndMerge uid w = (Threw err, w')
    /\ cloud w' = cloud w
    /\ Storage.libraries (store w') =
       CloudSync.merged
         (CloudSync.smartMergeLibraries
            (Storage.libraries (store w))
            (Firestore.arrayOrEmpty (Firestore.libraries data))
            (Storage.deletedLibraryIds (store w))
            (Firestore.arrayOrEmpty (Firestore.deletedLibraryIds data))).
Proof.
  intros Hg Hs Hc. rewrite (pullAndMerge_merge_fault uid w data e Hg Hs Hc).
  match goal with
  | |- context [Orchestrator.rethrow ?p ?n ?x ?v] =>
      destruct (rethrow_throws p n x v) as (err & Hr & _)
  end.
  rewrite Hr. eexists. eexists. split; [reflexivity|]. split; [reflexivity|].
  cbn [store]. rewrite persistProgress_libraries.
  match goal with
  | |- context [recordTombstones ?a ?b ?c] =>
      destruct (recordTombstones_progress a b c) as (_ & _ & Hl)
  end.
  rewrite Hl. reflexivity.
Qed.

Lemma upload_failure_keeps_local_merge_witness :
  exists err w',
    Orchestrator.pullAndMerge "u1"
      (mkWorld (Storage.mkStore [tieLocal] [] None true)
               (fun _ => Some (Firestore.mkDoc (Firestore.IsArray [skewRemote])
                                               Firestore.NotArray None None None))
               5 6 None (Some (Firestore.mkError (Some "permission-denied") "no"))
               [])
    = (Threw err, w')
    /\ Storage.libraries (store w') = [skewRemote].
Proof.
  destruct (upload_failure_keeps_local_merge "u1"
              (mkWorld (Storage.mkStore [tieLocal] [] None true)
                 (fun _ => Some (Firestore.mkDoc (Firestore.IsArray [skewRemote])
                                                 Firestore.NotArray None None None))
                 5 6 None (Some (Firestore.mkError (Some "permission-denied") "no"))
                 [])
              (Firestore.mkDoc (Firestore.IsArray [skewRemote])
                               Firestore.NotArray None None None)
              (Firestore.mkError (Some "permission-denied") "no"))
    as (err & w' & Hrun & _ & Hlibs).
  - reflexivity.
  - reflexivity.
  - reflexivity.
  - exists err, w'. split; [exact Hrun|]. rewrite Hlibs. reflexivity.
Defined.

(** Either way [pullAndMerge] ends, as a case distinction on the
    world it starts from. *)
Lemma pullAndMerge_outcomes (uid : string) (w : World) :
  (exists w', Orchestrator.pullAndMerge uid w = (Returned tt, w')
              /\ getDocFault w = None /\ setDocFault w = None
              /\ forall u, u <> uid -> cloud w' u = cloud w u)
  \/
  (exists e w',
      Orchestrator.pullAndMerge uid w =
      Orchestrator.rethrow syncFailedPrefix syncNoPermission e w'
      /\ (getDocFault w = Some e \/
          (getDocFault w = None /\ setDocFault w = Some e))
      /\ cloud w' = cloud w).
Proof.
  destruct (getDocFault w) as [e|] eqn:Hg.
  - right. exists e. eexists. split; [apply pullAndMerge_fetch_fault, Hg|].
    split; [now left | reflexivity].
  - destruct (setDocFault w) as [e|] eqn:Hs.
    + right. exists e. destruct (cloud w uid) as [data|] eqn:Hc.
      * eexists. split; [apply (pullAndMerge_merge_fault uid w data e Hg Hs Hc)|].
        split; [now right | reflexivity].
      * eexists. split; [apply (pullAndMerge_first_sync_fault uid w e Hg Hs Hc)|].
        split; [now right | reflexivity].
    + left. destruct (cloud w uid) as [data|] eqn:Hc.
      * eexists. split; [apply (pullAndMerge_merge uid w data Hg Hs Hc)|].
        repeat split. intros u Hu. cbn [cloud].
        apply String.eqb_neq in Hu. now rewrite Hu.
      * eexists. split; [apply (pullAndMerge_first_sync uid w Hg Hs Hc)|].
        repeat split. intros u Hu. cbn [cloud].
        apply String.eqb_neq in Hu. now rewrite Hu.
Qed.

(** X8 -- whatever [pullAndMerge] throws is an [Error] of its own
    making, without a [code]: it stems from a failure [e] of the fetch or
    of the upload, and its message is the permission message when
    [e.code] is ['permission-denied'], the network message when it is
    ['unavailable'], and the prefix ["同步失败: "] with [e.message] (or
    ["未知错误"] when that is empty) in every other case. *)
Theorem thrown_errors_are_translated (uid : string) (w w' : World)
    (err : Firestore.Error) :
  Orchestrator.pullAndMerge uid w = (Threw err, w') ->
  Firestore.code err = None
  /\ exists e,
       (getDocFault w = Some e \/
        (getDocFault w = None /\ setDocFault w = Some e))
       /\ (Firestore.code e = Some "permission-denied" ->
           Firestore.message err =
           "没有权限访问云端数据，请检查 Firestore 安全规则配置")
       /\ (Firestore.code e = Some "unavailable" ->
           Firestore.message err = "网络连接失败，请检查网络连接")
       /\ (Firestore.code e <> Some "permission-denied" ->
           Firestore.code e <> Some "unavailable" ->
           Firestore.message err =
           ("同步失败: " ++ (if String.eqb (Firestore.message e) EmptyString
                            then "未知错误"
                            else Firestore.message e))%string).
Proof.
  intros Hrun.
  destruct (pullAndMerge_outcomes uid w)
    as [(w1 & Hok & _)|(e & w1 & Hfail & Hfault & _)].
  - rewrite Hok in Hrun. discriminate.
  - rewrite Hfail in Hrun.
    destruct (rethrow_throws syncFailedPrefix syncNoPermission e w1)
      as (err1 & Hr & Hcode & Hperm & Hnet & Hother).
    rewrite Hr in Hrun. injection Hrun as <- _.
    split; [exact Hcode|]. exists e. split; [exact Hfault|].
    split; [exact Hperm|]. split; [exact Hnet | exact Hother].
Qed.

Lemma thrown_errors_are_translated_witness :
  Firestore.code (Firestore.mkError None "同步失败: quota") = None
  /\ exists e,
       (getDocFault
          (mkWorld (store (sampleWorld None)) (cloud (sampleWorld None)) 5 6
             (Some (Firestore.mkError (Some "resource-exhausted") "quota"))
             None [])
        = Some e \/
        (getDocFault
           (mkWorld (store (sampleWorld None)) (cloud (sampleWorld None)) 5 6
              (Some (Firestore.mkError (Some "resource-exhausted") "quota"))
              None [])
         = None /\
         setDocFault
           (mkWorld (store (sampleWorld None)) (cloud (sampleWorld None)) 5 6
              (Some (Firestore.mkError (Some "resource-exhausted") "quota"))
              None [])
         = Some e))
       /\ (Firestore.code e = Some "permission-denied" ->
           Firestore.message (Firestore.mkError None "同步失败: quota") =
           "没有权限访问云端数据，请检查 Firestore 安全规则配置")
       /\ (Firestore.code e = Some "unavailable" ->
           Firestore.message (Firestore.mkError None "同步失败: quota") =
           "网络连接失败，请检查网络连接")
       /\ (Firestore.code e <> Some "permission-denied" ->
           Firestore.code e <> Some "unavailable" ->
           Firestore.message (Firestore.mkError None "同步失败: quota") =
           ("同步失败: " ++ (if String.eqb (Firestore.message e) EmptyString
                            then "未知错误"
                            else Firestore.message e))%string).
Proof.
  eapply (thrown_errors_are_translated "u1"). reflexivity.
Defined.

(** X9 -- [pullAndMerge] for one user never touches the document of
    another, however it ends. *)
Theorem other_users_untouched (uid u : string) (w : World) :
  u <> uid ->
  cloud (snd (Orchestrator.pullAndMerge uid w)) u = cloud w u.
Proof.
  intros Hu.
  destruct (pullAndMerge_outcomes uid w)
    as [(w1 & Hok & _ & _ & Hframe)|(e & w1 & Hfail & _ & Hcloud)].
  - rewrite Hok. simpl. now apply Hframe.
  - rewrite Hfail.
    destruct (rethrow_throws syncFailedPrefix syncNoPermission e w1)
      as (err & Hr & _).
    rewrite Hr. simpl. now rewrite Hcloud.
Qed.

Lemma other_users_untouched_witness :
  cloud (snd (Orchestrator.pullAndMerge "u1"
                (mkWorld (Storage.mkStore [tieLocal] [] None true)
                   (fun _ => Some (Firestore.mkDoc (Firestore.IsArray [skewRemote])
                                                   Firestore.NotArray None None None))
                   5 6 None None [])))
        "u2"
  = Some (Firestore.mkDoc (Firestore.IsArray [skewRemote])
                          Firestore.NotArray None None None).
Proof.
  apply (other_users_untouched "u1" "u2"
           (mkWorld (Storage.mkStore [tieLocal] [] None true)
              (fun _ => Some (Firestore.mkDoc (Firestore.IsArray [skewRemote])
                                              Firestore.NotArray None None None))
              5 6 None None [])).
  discriminate.
Defined.

(** ** After a successful sync *)

(** The successful merge run, reduced to what it leaves behind. *)
Lemma pullAndMerge_success (uid : string) (w : World) (data : Firestore.Doc) :
  getDocFault w = None -> setDocFault w = None -> cloud w uid = Some data ->
  exists w',
    Orchestrator.pullAndMerge uid w = (Returned tt, w')
    /\ store w' = storeAfterSync (store w) data
    /\ cloud w' uid = Some (docAfterSync (store w) data (clock w) (serverClock w))
    /\ getDocFault w' = None /\ setDocFault w' = None.
Proof.
  intros Hg Hs Hc. eexists.
  split; [apply (pullAndMerge_merge uid w data Hg Hs Hc)|].
  cbn [store cloud getDocFault setDocFault]. rewrite String.eqb_refl.
  repeat split.
Qed.

Lemma add_all_fresh_run (xs : list string) :
  forall s, NoDup xs -> (forall x, In x xs -> ~ In x s) ->
            JsSet.add_all xs s = s ++ xs.
Proof.
  unfold JsSet.add_all.
  induction xs as [|x xs IH]; intros s Hnd Hout; simpl.
  - now rewrite app_nil_r.
  - inversion Hnd as [|? ? Hx Hnd']; subst.
    rewrite add_absent by (apply Hout; now left).
    rewrite IH; [now rewrite <- app_assoc | assumption |].
    intros y Hy Hin. apply in_app_or in Hin. destruct Hin as [Hin|[<-|[]]].
    + apply (Hout y); [now right | assumption].
    + contradiction.
Qed.

Lemma filter_none {A : Type} (f : A -> bool) (l : list A) :
  (forall x, In x l -> f x = false) -> filter f l = [].
Proof.
  induction l as [|x l IH]; intros H; simpl; [reflexivity|].
  rewrite (H x) by now left. apply IH. intros y Hy. apply H. now right.
Qed.

(** What [add_all] appends: a duplicate-free run of new elements. *)
Lemma add_all_split (xs : list string) :
  forall s, exists news,
    JsSet.add_all xs s = s ++ news
    /\ NoDup news
    /\ (forall n, In n news -> In n xs /\ ~ In n s).
Proof.
  unfold JsSet.add_all.
  induction xs as [|x xs IH]; intros s; simpl.
  - exists []. rewrite app_nil_r. repeat split; [constructor | destruct H | destruct H].
  - destruct (in_dec string_dec x s) as [Hin|Hout].
    + rewrite add_present by assumption.
      destruct (IH s) as (news & Heq & Hnd & Hnew). exists news.
      repeat split; try assumption.
      * right. now apply Hnew.
      * now apply Hnew.
    + rewrite add_absent by assumption.
      destruct (IH (s ++ [x])) as (news & Heq & Hnd & Hnew).
      exists (x :: news). rewrite Heq, <- app_assoc. repeat split.
      * constructor; [|assumption]. intros Hx. apply (proj2 (Hnew x Hx)).
        apply in_or_app. right. now left.
      * destruct H as [<-|Hn]; [now left | right; now apply Hnew].
      * destruct H as [<-|Hn]; [assumption|].
        intros Hs. apply (proj2 (Hnew n Hn)). apply in_or_app. now left.
Qed.

(** [recordTombstones] on the fields of the store. *)
Lemma recordTombstones_shape (localDeletedIds ids : list string) :
  forall libs del progress writable,
    recordTombstones localDeletedIds ids
      (Storage.mkStore libs del progress writable)
    = Storage.mkStore libs
        (JsSet.add_all
           (filter (fun id => negb (JsSet.has id localDeletedIds)) ids) del)
        progress writable.
Proof.
  unfold recordTombstones, JsSet.add_all.
  induction ids as [|id ids IH]; intros libs del progress writable; simpl;
    [reflexivity|].
  change (existsb (String.eqb id) localDeletedIds)
    with (JsSet.has id localDeletedIds).
  destruct (JsSet.has id localDeletedIds); simpl; apply IH.
Qed.

(** The local tombstones after a sync: the ones there were, then the
    remote ones that were not among them. *)
Lemma tombstones_after_sync (localDeletedIds remoteDeletedIds : list string) :
  exists news,
    JsSet.of_list (localDeletedIds ++ remoteDeletedIds)
    = JsSet.of_list localDeletedIds ++ news
    /\ JsSet.add_all
         (filter (fun id => negb (JsSet.has id localDeletedIds))
                 (JsSet.of_list (localDeletedIds ++ remoteDeletedIds)))
         localDeletedIds
       = localDeletedIds ++ news
    /\ NoDup news
    /\ (forall n, In n news -> ~ In n localDeletedIds).
Proof.
  destruct (add_all_split remoteDeletedIds (JsSet.of_list localDeletedIds))
    as (news & Heq & Hnd & Hnew).
  assert (Hout : forall n, In n news -> ~ In n localDeletedIds).
  { intros n Hn Hin. apply (proj2 (Hnew n Hn)). now apply of_list_In. }
  exists news. rewrite of_list_app, Heq. split; [reflexivity|].
  split; [|split; assumption].
  rewrite filter_app.
  replace (filter _ (JsSet.of_list localDeletedIds)) with (@nil string).
  - simpl. replace (filter _ news) with news.
    + apply add_all_fresh_run; assumption.
    + symmetry. apply forallb_filter_id. apply forallb_forall.
      intros n Hn. apply negb_true_iff, has_false. now apply Hout.
  - symmetry. apply filter_none.
    intros n Hn. apply (proj1 (of_list_In _ _)) in Hn.
    apply (proj2 (has_In _ _)) in Hn. now rewrite Hn.
Qed.

(** The merged libraries are live and have distinct ids. *)
Lemma merged_live
    (localLibs remoteLibs : list VocabularyLibrary)
    (localDeletedIds remoteDeletedIds : list string) (lib : VocabularyLibrary) :
  In lib (CloudSync.merged
            (CloudSync.smartMergeLibraries
               localLibs remoteLibs localDeletedIds remoteDeletedIds)) ->
  ~ In (Lib.id lib) (localDeletedIds ++ remoteDeletedIds).
Proof.
  intros Hin Hdel.
  destruct (merged_as_map localLibs remoteLibs localDeletedIds remoteDeletedIds)
    as (Hm & Hkeyed & Hclear).
  assert (Hk : In (Lib.id lib)
                  (map Lib.id
                     (CloudSync.merged
                        (CloudSync.smartMergeLibraries
                           localLibs remoteLibs localDeletedIds remoteDeletedIds))))
    by now apply in_map.
  rewrite Hm, (ids_of_values _ Hkeyed) in Hk.
  apply Hclear in Hk. apply has_false in Hk. apply Hk. now apply of_list_In.
Qed.

Lemma merged_distinct
    (localLibs remoteLibs : list VocabularyLibrary)
    (localDeletedIds remoteDeletedIds : list string) :
  NoDup (map Lib.id
           (CloudSync.merged
              (CloudSync.smartMergeLibraries
                 localLibs remoteLibs localDeletedIds remoteDeletedIds))).
Proof.
  destruct (merged_as_map localLibs remoteLibs localDeletedIds remoteDeletedIds)
    as (Hm & Hkeyed & _).
  rewrite Hm, (ids_of_values _ Hkeyed). exact (proj1 Hkeyed).
Qed.

(** The Local Store after a successful sync, field by field. *)
Lemma storeAfterSync_fields (st : Storage.LocalStore) (data : Firestore.Doc) :
  exists news,
    CloudSync.finalDeletedIds (mergeOf st data)
    = JsSet.of_list (Storage.deletedLibraryIds st) ++ news
    /\ NoDup news
    /\ (forall n, In n news -> ~ In n (Storage.deletedLibraryIds st))
    /\ storeAfterSync st data
       = Storage.mkStore
           (CloudSync.merged (mergeOf st data))
           (Storage.deletedLibraryIds st ++ news)
           (if Storage.progressWritable st
            then match chosenOf st data with
                 | Some p => Some p
                 | None => Storage.practiceProgress st
                 end
            else Storage.practiceProgress st)
           (Storage.progressWritable st).
Proof.
  destruct (tombstones_after_sync (Storage.deletedLibraryIds st)
              (Firestore.arrayOrEmpty (Firestore.deletedLibraryIds data)))
    as (news & Hfinal & Hlocal & Hnd & Hout).
  exists news. split; [exact Hfinal|]. split; [exact Hnd|]. split; [exact Hout|].
  unfold storeAfterSync, Storage.saveLibraries.
  rewrite recordTombstones_shape.
  change (CloudSync.finalDeletedIds (mergeOf st data))
    with (JsSet.of_list (Storage.deletedLibraryIds st ++
            Firestore.arrayOrEmpty (Firestore.deletedLibraryIds data))).
  rewrite Hlocal.
  unfold persistProgress, Storage.savePracticeProgress.
  cbn [Storage.progressWritable Storage.libraries Storage.deletedLibraryIds
       Storage.practiceProgress].
  destruct (chosenOf st data) as [p|], (Storage.progressWritable st);
    reflexivity.
Qed.

(** Merging what a sync left in the Local Store with what it uploaded
    gives the same libraries and the same tombstones again. *)
Lemma merge_after_sync (st : Storage.LocalStore) (data : Firestore.Doc)
    (t s : Z) :
  mergeOf (storeAfterSync st data) (docAfterSync st data t s)
  = mergeOf st data.
Proof.
  destruct (storeAfterSync_fields st data) as (news & Hfinal & Hnd & Hout & Hst).
  rewrite Hst. unfold mergeOf at 1.
  cbn [Storage.libraries Storage.deletedLibraryIds docAfterSync uploaded
       Firestore.libraries Firestore.deletedLibraryIds Firestore.arrayOrEmpty
       profile_libraries profile_deletedLibraryIds].
  set (M := CloudSync.merged (mergeOf st data)).
  set (final := CloudSync.finalDeletedIds (mergeOf st data)) in *.
  assert (Hset : forall i, In i ((Storage.deletedLibraryIds st ++ news) ++ final)
                           <-> In i final).
  { intros i. rewrite Hfinal, !in_app_iff, of_list_In. tauto. }
  assert (Hdel : JsSet.of_list ((Storage.deletedLibraryIds st ++ news) ++ final)
                 = final).
  { rewrite of_list_app, of_list_app.
    rewrite (add_all_fresh_run news (JsSet.of_list (Storage.deletedLibraryIds st)));
      [| assumption | intros n Hn Hin; apply (Hout n Hn); now apply of_list_In].
    rewrite <- Hfinal. apply add_all_absorb, incl_refl. }
  assert (Hlive : forall l, In l M -> ~ In (Lib.id l) final).
  { intros l Hl. unfold final.
    change (CloudSync.finalDeletedIds (mergeOf st data))
      with (JsSet.of_list (Storage.deletedLibraryIds st ++
              Firestore.arrayOrEmpty (Firestore.deletedLibraryIds data))).
    rewrite of_list_In. now apply merged_live in Hl. }
  unfold CloudSync.smartMergeLibraries at 1. rewrite Hdel.
  rewrite nothing_new_in_map.
  - reflexivity.
  - apply merged_distinct.
  - intros l Hl. apply has_false. now apply Hlive.
  - intros r Hr. right. exists r. split; [assumption|]. split; [reflexivity|lia].
Qed.

Lemma chooseProgress_same (p : option PracticeProgress) :
  Orchestrator.chooseProgress p p = p.
Proof.
  rewrite chooseProgress_cases. destruct p as [x|]; [|reflexivity].
  now destruct (_ >? _).
Qed.

Lemma chooseProgress_again (r l : option PracticeProgress) :
  Orchestrator.chooseProgress (Orchestrator.chooseProgress r l) l
  = Orchestrator.chooseProgress r l.
Proof.
  rewrite !chooseProgress_cases.
  destruct l as [pl|], r as [pr|]; try reflexivity.
  - destruct (Z.gtb_spec (timestamp pl) (timestamp pr)).
    + now destruct (_ >? _).
    + destruct (Z.gtb_spec (timestamp pl) (timestamp pr)); [lia|reflexivity].
  - now destruct (_ >? _).
Qed.

Lemma chosen_after_sync (st : Storage.LocalStore) (data : Firestore.Doc)
    (t s : Z) :
  chosenOf (storeAfterSync st data) (docAfterSync st data t s)
  = chosenOf st data.
Proof.
  destruct (storeAfterSync_fields st data) as (news & _ & _ & _ & Hst).
  rewrite Hst. unfold chosenOf at 1.
  cbn [Storage.practiceProgress docAfterSync uploaded Firestore.practiceProgress
       profile_practiceProgress].
  destruct (Storage.progressWritable st).
  - destruct (chosenOf st data) as [p|] eqn:Ch.
    + apply chooseProgress_same.
    + unfold chosenOf in Ch. rewrite chooseProgress_cases in Ch.
      destruct (Storage.practiceProgress st), (Firestore.practiceProgress data);
        try discriminate; reflexivity.
  - apply chooseProgress_again.
Qed.

Lemma store_after_second_sync (st : Storage.LocalStore) (data : Firestore.Doc)
    (t s : Z) :
  storeAfterSync (storeAfterSync st data) (docAfterSync st data t s)
  = storeAfterSync st data.
Proof.
  unfold storeAfterSync at 1.
  rewrite merge_after_sync, chosen_after_sync.
  destruct (storeAfterSync_fields st data) as (news & Hfinal & Hnd & Hout & Hst).
  rewrite Hst. unfold Storage.saveLibraries.
  cbn [Storage.deletedLibraryIds Storage.practiceProgress
       Storage.progressWritable Storage.libraries].
  rewrite recordTombstones_shape.
  rewrite filter_none.
  - unfold persistProgress, Storage.savePracticeProgress, JsSet.add_all.
    cbn [fold_left Storage.progressWritable Storage.libraries
         Storage.deletedLibraryIds Storage.practiceProgress].
    destruct (chosenOf st data) as [p|], (Storage.progressWritable st);
      reflexivity.
  - intros i Hi. apply negb_false_iff, has_In.
    rewrite Hfinal in Hi. apply in_app_or in Hi. apply in_or_app.
    destruct Hi as [Hi|Hi]; [left; now apply of_list_In | now right].
Qed.

Lemma doc_after_second_sync (st : Storage.LocalStore) (data : Firestore.Doc)
    (t s t' s' : Z) :
  docAfterSync (storeAfterSync st data) (docAfterSync st data t s) t' s'
  = docAfterSync st data t' s'.
Proof.
  unfold docAfterSync at 1. rewrite merge_after_sync, chosen_after_sync.
  reflexivity.
Qed.

(** X10 -- after a successful sync against an existing remote document
    the two replicas agree: the Local Store holds the very list of
    libraries that was uploaded and the very ids, as a set, that were
    uploaded as tombstones; every tombstone the Local Store had is still
    there; and no library in the Local Store carries a tombstoned id. *)
Theorem sync_leaves_replicas_agreeing (uid : string) (w : World)
    (data : Firestore.Doc) :
  getDocFault w = None -> setDocFault w = None -> cloud w uid = Some data ->
  exists w' d' ids,
    Orchestrator.pullAndMerge uid w = (Returned tt, w')
    /\ cloud w' uid = Some d'
    /\ Firestore.libraries d' = Firestore.IsArray (Storage.libraries (store w'))
    /\ Firestore.deletedLibraryIds d' = Firestore.IsArray ids
    /\ (forall i, In i ids <-> In i (Storage.deletedLibraryIds (store w')))
    /\ incl (Storage.deletedLibraryIds (store w))
            (Storage.deletedLibraryIds (store w'))
    /\ (forall lib, In lib (Storage.libraries (store w')) ->
                    ~ In (Lib.id lib) (Storage.deletedLibraryIds (store w'))).
Proof.
  intros Hg Hs Hc.
  destruct (pullAndMerge_success uid w data Hg Hs Hc)
    as (w' & Hrun & Hstore & Hdoc & _).
  destruct (storeAfterSync_fields (store w) data)
    as (news & Hfinal & Hnd & Hout & Hst).
  exists w'. eexists. eexists. split; [exact Hrun|]. split; [exact Hdoc|].
  rewrite Hstore, Hst.
  cbn [docAfterSync uploaded Firestore.libraries Firestore.deletedLibraryIds
       profile_libraries profile_deletedLibraryIds Storage.libraries
       Storage.deletedLibraryIds].
  split; [reflexivity|]. split; [reflexivity|].
  assert (Hset : forall i,
             In i (CloudSync.finalDeletedIds (mergeOf (store w) data)) <->
             In i (Storage.deletedLibraryIds (store w) ++ news)).
  { intros i. rewrite Hfinal, !in_app_iff, of_list_In. tauto. }
  split; [exact Hset|]. split.
  - intros i Hi. apply in_or_app. now left.
  - intros lib Hlib Hin. apply Hset in Hin.
    change (CloudSync.finalDeletedIds (mergeOf (store w) data))
      with (JsSet.of_list (Storage.deletedLibraryIds (store w) ++
              Firestore.arrayOrEmpty (Firestore.deletedLibraryIds data))) in Hin.
    apply (proj1 (of_list_In _ _)) in Hin.
    now apply merged_live in Hlib.
Qed.

Lemma sync_leaves_replicas_agreeing_witness :
  exists w' d' ids,
    Orchestrator.pullAndMerge "u1"
      (sampleWorld
         (Some (Firestore.mkDoc (Firestore.IsArray [skewRemote; fruitRemote])
                                (Firestore.IsArray ["fruit"; "a"])
                                None None None)))
    = (Returned tt, w')
    /\ cloud w' "u1" = Some d'
    /\ Firestore.libraries d' = Firestore.IsArray (Storage.libraries (store w'))
    /\ Firestore.deletedLibraryIds d' = Firestore.IsArray ids
    /\ (forall i, In i ids <-> In i (Storage.deletedLibraryIds (store w'))).
Proof.
  destruct (sync_leaves_replicas_agreeing "u1"
              (sampleWorld
                 (Some (Firestore.mkDoc
                          (Firestore.IsArray [skewRemote; fruitRemote])
                          (Firestore.IsArray ["fruit"; "a"]) None None None)))
              (Firestore.mkDoc (Firestore.IsArray [skewRemote; fruitRemote])
                               (Firestore.IsArray ["fruit"; "a"]) None None None))
    as (w' & d' & ids & Hrun & Hdoc & Hlibs & Hids & Hset & _).
  - reflexivity.
  - reflexivity.
  - reflexivity.
  - exists w', d', ids. repeat split; try assumption; apply Hset.
Defined.

(** X11 -- syncing twice in a row is syncing once: a second
    [pullAndMerge] right after a successful one against an existing
    document, at whatever time, leaves the Local Store exactly as the
    first left it and uploads the same libraries, tombstones and
    progress. *)
Theorem second_sync_changes_nothing (uid : string) (w : World)
    (data : Firestore.Doc) (t s : Z) :
  getDocFault w = None -> setDocFault w = None -> cloud w uid = Some data ->
  exists w1 d1 w2 d2,
    Orchestrator.pullAndMerge uid w = (Returned tt, w1)
    /\ cloud w1 uid = Some d1
    /\ Orchestrator.pullAndMerge uid (at_time t s w1) = (Returned tt, w2)
    /\ cloud w2 uid = Some d2
    /\ store w2 = store w1
    /\ Firestore.libraries d2 = Firestore.libraries d1
    /\ Firestore.deletedLibraryIds d2 = Firestore.deletedLibraryIds d1
    /\ Firestore.practiceProgress d2 = Firestore.practiceProgress d1.
Proof.
  intros Hg Hs Hc.
  destruct (pullAndMerge_success uid w data Hg Hs Hc)
    as (w1 & Hrun1 & Hstore1 & Hdoc1 & Hg1 & Hs1).
  destruct (pullAndMerge_success uid (at_time t s w1)
              (docAfterSync (store w) data (clock w) (serverClock w)))
    as (w2 & Hrun2 & Hstore2 & Hdoc2 & _); try assumption.
  exists w1. eexists. exists w2. eexists.
  split; [exact Hrun1|]. split; [exact Hdoc1|].
  split; [exact Hrun2|]. split; [exact Hdoc2|].
  cbn [at_time store clock serverClock] in *.
  rewrite Hstore2, Hstore1. split; [apply store_after_second_sync|].
  rewrite doc_after_second_sync. repeat split.
Qed.

Lemma second_sync_changes_nothing_witness :
  exists w1 w2,
    Orchestrator.pullAndMerge "u1"
      (sampleWorld
         (Some (Firestore.mkDoc (Firestore.IsArray [skewRemote; fruitRemote])
                                (Firestore.IsArray ["fruit"; "z"])
                                (Some (mkProgress "a" 9 100)) None None)))
    = (Returned tt, w1)
    /\ Orchestrator.pullAndMerge "u1" (at_time 1700000009999 1700000019999 w1)
       = (Returned tt, w2)
    /\ store w2 = store w1.
Proof.
  destruct (second_sync_changes_nothing "u1"
              (sampleWorld
                 (Some (Firestore.mkDoc
                          (Firestore.IsArray [skewRemote; fruitRemote])
                          (Firestore.IsArray ["fruit"; "z"])
                          (Some (mkProgress "a" 9 100)) None None)))
              (Firestore.mkDoc (Firestore.IsArray [skewRemote; fruitRemote])
                               (Firestore.IsArray ["fruit"; "z"])
                               (Some (mkProgress "a" 9 100)) None None)
              1700000009999 1700000019999)
    as (w1 & d1 & w2 & d2 & Hrun1 & _ & Hrun2 & _ & Hstore & _).
  - reflexivity.
  - reflexivity.
  - reflexivity.
  - exists w1, w2. repeat split; assumption.
Defined.

(** ** [pushAll] *)

Section PushRuns.
Import Orchestrator.

Lemma pushAll_ok (uid : string) (w : World) :
  setDocFault w = None ->
  pushAll uid w =
  (Returned tt,
   mkWorld (store w)
     (fun u =>
        if String.eqb u uid
        then Some (uploaded
                     (mkProfile (Storage.libraries (store w))
                                (Storage.deletedLibraryIds (store w))
                                (Storage.practiceProgress (store w))
                                (clock w))
                     (serverClock w))
        else cloud w u)
     (clock w) (serverClock w) (getDocFault w) None
     (console w ++ [LogPushStart;
                    LogPushCount (List.length (Storage.libraries (store w)));
                    LogPushDone])).
Proof.
  destruct w as [st cl ck sck gf sf con]. simpl. intros ->.
  unfold pushAll, bind, try_catch, log, loadLibraries, loadPracticeProgress,
    getDeletedLibraryIds, dateNow, setDoc, set_cloud.
  simpl. rewrite <- !app_assoc. reflexivity.
Qed.

Lemma pushAll_fault (uid : string) (w : World) (e : Firestore.Error) :
  setDocFault w = Some e ->
  pushAll uid w =
  rethrow "推送失败: " "没有权限上传数据，请检查 Firestore 安全规则配置" e
    (mkWorld (store w) (cloud w) (clock w) (serverClock w)
       (getDocFault w) (setDocFault w)
       (console w ++ [LogPushStart;
                      LogPushCount (List.length (Storage.libraries (store w)));
                      LogPushFailed e])).
Proof.
  destruct w as [st cl ck sck gf sf con]. simpl. intros ->.
  unfold pushAll, bind, try_catch, log, loadLibraries, loadPracticeProgress,
    getDeletedLibraryIds, dateNow, setDoc.
  simpl. rewrite <- !app_assoc. reflexivity.
Qed.

End PushRuns.

(** X12 -- [pushAll] overwrites: when the upload goes through, the
    user's document is the local snapshot (libraries, tombstones,
    progress, [updatedAt] the current time), whatever it held before and
    whether or not it existed; nothing is read from the cloud, nothing is
    merged, the Local Store and the other users' documents are as they
    were. *)
Theorem pushAll_overwrites (uid : string) (w : World) :
  setDocFault w = None ->
  exists w',
    Orchestrator.pushAll uid w = (Returned tt, w')
    /\ cloud w' uid =
       Some (Firestore.mkDoc
               (Firestore.IsArray (Storage.libraries (store w)))
               (Firestore.IsArray (Storage.deletedLibraryIds (store w)))
               (Storage.practiceProgress (store w))
               (Some (clock w))
               (Some (serverClock w)))
    /\ store w' = store w
    /\ (forall u, u <> uid -> cloud w' u = cloud w u).
Proof.
  intros Hs. eexists. split; [apply (pushAll_ok uid w Hs)|].
  cbn [cloud store]. rewrite String.eqb_refl. repeat split.
  intros u Hu. apply String.eqb_neq in Hu. now rewrite Hu.
Qed.

Lemma pushAll_overwrites_witness :
  exists w',
    Orchestrator.pushAll "u1"
      (mkWorld (Storage.mkStore [tieLocal] ["z"] None true)
         (fun _ => Some (Firestore.mkDoc (Firestore.IsArray [skewRemote; fruitRemote])
                                         (Firestore.IsArray ["q"]) None None None))
         5 6 (Some (Firestore.mkError (Some "unavailable") "offline")) None [])
    = (Returned tt, w')
    /\ cloud w' "u1" =
       Some (Firestore.mkDoc (Firestore.IsArray [tieLocal]) (Firestore.IsArray ["z"])
                             None (Some 5) (Some 6)).
Proof.
  destruct (pushAll_overwrites "u1"
              (mkWorld (Storage.mkStore [tieLocal] ["z"] None true)
                 (fun _ => Some (Firestore.mkDoc
                                   (Firestore.IsArray [skewRemote; fruitRemote])
                                   (Firestore.IsArray ["q"]) None None None))
                 5 6 (Some (Firestore.mkError (Some "unavailable") "offline"))
                 None []))
    as (w' & Hrun & Hdoc & _).
  - reflexivity.
  - exists w'. split; assumption.
Defined.

(** X13 -- when the upload fails, [pushAll] throws an [Error] of its
    own, without a [code], worded by the [code] of the failure, and
    neither the Local Store nor any document has changed. *)
Theorem pushAll_failure (uid : string) (w : World) (e : Firestore.Error) :
  setDocFault w = Some e ->
  exists err w',
    Orchestrator.pushAll uid w = (Threw err, w')
    /\ store w' = store w
    /\ cloud w' = cloud w
    /\ Firestore.code err = None
    /\ (Firestore.code e = Some "permission-denied" ->
        Firestore.message err =
        "没有权限上传数据，请检查 Firestore 安全规则配置")
    /\ (Firestore.code e = Some "unavailable" ->
        Firestore.message err = "网络连接失败，请检查网络连接")
    /\ (Firestore.code e <> Some "permission-denied" ->
        Firestore.code e <> Some "unavailable" ->
        Firestore.message err =
        ("推送失败: " ++ (if String.eqb (Firestore.message e) EmptyString
                         then "未知错误"
                         else Firestore.message e))%string).
Proof.
  intros Hs. rewrite (pushAll_fault uid w e Hs).
  match goal with
  | |- context [Orchestrator.rethrow ?p ?n ?x ?v] =>
      destruct (rethrow_throws p n x v) as (err & Hr & Hcode & Hperm & Hnet & Hother)
  end.
  rewrite Hr. exists err. eexists. split; [reflexivity|].
  split; [reflexivity|]. split; [reflexivity|]. split; [exact Hcode|].
  split; [exact Hperm|]. split; [exact Hnet | exact Hother].
Qed.

Lemma pushAll_failure_witness :
  exists err w',
    Orchestrator.pushAll "u1"
      (mkWorld (Storage.mkStore [tieLocal] ["z"] None true) (fun _ => None)
         5 6 None (Some (Firestore.mkError (Some "permission-denied")
                                           EmptyString)) [])
    = (Threw err, w')
    /\ Firestore.message err =
       "没有权限上传数据，请检查 Firestore 安全规则配置".
Proof.
  destruct (pushAll_failure "u1"
              (mkWorld (Storage.mkStore [tieLocal] ["z"] None true) (fun _ => None)
                 5 6 None (Some (Firestore.mkError (Some "permission-denied")
                                                   EmptyString)) [])
              (Firestore.mkError (Some "permission-denied") EmptyString))
    as (err & w' & Hrun & _ & _ & _ & Hperm & _).
  - reflexivity.
  - exists err, w'. split; [exact Hrun|]. now apply Hperm.
Defined.

(* ================================================================= *)
(** * Further properties of the item-union merge *)

Lemma keys_pushLib (m : JsMap.t VocabularyLibrary) (lib : VocabularyLibrary) :
  JsMap.keys (LegacySync.pushLib m lib) = JsSet.add (Lib.id lib) (JsMap.keys m).
Proof.
  unfold LegacySync.pushLib.
  destruct (JsMap.get (Lib.id lib) m) as [existed|]; [|apply keys_set].
  destruct (fold_left _ _ _) as [pushed seen]. apply keys_set.
Qed.

Lemma keys_fold_pushLib (libs : list VocabularyLibrary) :
  forall m,
    JsMap.keys (fold_left LegacySync.pushLib libs m)
    = JsSet.add_all (map Lib.id libs) (JsMap.keys m).
Proof.
  induction libs as [|lib libs IH]; intros m; simpl; [reflexivity|].
  now rewrite IH, keys_pushLib.
Qed.

(** X14 -- the ids of the item-union merge, in its order: the ids of
    the first input followed by those of the second, each at its first
    occurrence only; no library is dropped, whatever the user deleted. *)
Theorem union_ids_in_order (a b : list VocabularyLibrary) :
  map Lib.id (LegacySync.mergeLibraries a b)
  = JsSet.of_list (map Lib.id (a ++ b)).
Proof.
  destruct (mergeLibraries_as_map a b) as [Hm Hkeyed].
  rewrite Hm, (ids_of_values _ Hkeyed). apply keys_fold_pushLib.
Qed.

Lemma with_items_same (lib : VocabularyLibrary) :
  Lib.with_items lib (Lib.items lib) = lib.
Proof. now destruct lib. Qed.

(** X15 -- an id with a copy in one input only: the item-union merge
    returns that copy as it is, its items neither deduplicated nor
    sorted. *)
Theorem union_one_sided_as_is (a b : list VocabularyLibrary) (i : string)
    (x : VocabularyLibrary) :
  (copiesOf i a = [x] /\ copiesOf i b = []) \/
  (copiesOf i a = [] /\ copiesOf i b = [x]) ->
  copiesOf i (LegacySync.mergeLibraries a b) = [x].
Proof.
  intros Hside. rewrite mergeLibraries_copies.
  destruct Hside as [[-> ->]|[-> ->]]; simpl; now rewrite with_items_same.
Qed.

Lemma union_one_sided_as_is_witness :
  copiesOf "fruit"
    (LegacySync.mergeLibraries [tieLocal] [fruitRemote; skewRemote])
  = [fruitRemote].
Proof.
  apply union_one_sided_as_is. right. split; reflexivity.
Defined.

(** ** No item lost, none invented *)

Lemma mergeInto_accountsFor (seen : list VocabularyLibrary)
    (v x : VocabularyLibrary) :
  accountsFor seen v ->
  accountsFor (seen ++ [x])
    (Lib.with_items v
       (js_sort LegacySync.byCreatedAtDesc
          (unionItems (Lib.items v) (Lib.items x)))).
Proof.
  intros [Hfrom Hcover].
  destruct (unionItems_spec (Lib.items v) (Lib.items x))
    as (fresh & Heq & Hincl & _ & _ & Hall).
  assert (Hin : forall it,
             In it (js_sort LegacySync.byCreatedAtDesc
                      (unionItems (Lib.items v) (Lib.items x)))
             <-> In it (Lib.items v ++ fresh)).
  { intros it. rewrite <- Heq. split; apply Permutation_in;
      [|symmetry]; apply js_sort_perm. }
  split; cbn [Lib.with_items Lib.items].
  - intros it Hit. apply Hin in Hit. apply in_app_or in Hit.
    destruct Hit as [Hit|Hit].
    + destruct (Hfrom it Hit) as (lib & Hlib & Hl). exists lib.
      split; [apply in_or_app; now left | assumption].
    + exists x. split; [apply in_or_app; right; now left | now apply Hincl].
  - intros lib it Hlib Hit. apply in_app_or in Hlib.
    destruct Hlib as [Hlib|[<-|[]]].
    + destruct (Hcover lib it Hlib Hit) as (it' & Hit' & Hkey). exists it'.
      split; [|assumption]. apply Hin. apply in_or_app. now left.
    + specialize (Hall it Hit). apply in_map_iff in Hall.
      destruct Hall as (it' & Hkey & Hit'). exists it'.
      split; [now apply Hin | assumption].
Qed.

Lemma fold_mergeInto_accountsFor (xs : list VocabularyLibrary) :
  forall seen v,
    accountsFor seen v ->
    exists v', fold_left mergeInto xs (Some v) = Some v'
               /\ accountsFor (seen ++ xs) v'.
Proof.
  induction xs as [|x xs IH]; intros seen v Hv; simpl.
  - exists v. now rewrite app_nil_r.
  - destruct (IH (seen ++ [x]) _ (mergeInto_accountsFor seen v x Hv))
      as (v' & Hfold & Hacc).
    exists v'. split; [assumption|]. now rewrite <- app_assoc in Hacc.
Qed.

(** X16 -- the item-union merge neither invents nor loses an item,
    however many copies of a library the two inputs hold: the merged
    library of an id is made of items of the copies of that id, and every
    item of every copy has an item with the same key
    [type#english#chinese] in it. *)
Theorem union_accounts_for_every_item (a b : list VocabularyLibrary)
    (i : string) :
  copiesOf i a ++ copiesOf i b <> [] ->
  exists m,
    copiesOf i (LegacySync.mergeLibraries a b) = [m]
    /\ (forall it, In it (Lib.items m) ->
          exists lib, In lib (copiesOf i a ++ copiesOf i b)
                      /\ In it (Lib.items lib))
    /\ (forall lib it,
          In lib (copiesOf i a ++ copiesOf i b) -> In it (Lib.items lib) ->
          exists it', In it' (Lib.items m)
                      /\ LegacySync.uniqueKeyOfItem it'
                         = LegacySync.uniqueKeyOfItem it).
Proof.
  intros Hne. rewrite mergeLibraries_copies.
  destruct (copiesOf i a ++ copiesOf i b) as [|x xs]; [congruence|].
  cbn [fold_left mergeInto].
  assert (Hx : accountsFor [x] (Lib.with_items x (Lib.items x))).
  { rewrite with_items_same. split.
    - intros it Hit. exists x. split; [now left | assumption].
    - intros lib it [<-|[]] Hit. now exists it. }
  destruct (fold_mergeInto_accountsFor xs [x] _ Hx) as (m & Hfold & Hacc).
  exists m. split; [|exact Hacc].
  match goal with
  | |- match ?slot with _ => _ end = _ =>
      replace slot with (Some m) by (symmetry; exact Hfold)
  end.
  reflexivity.
Qed.

Lemma union_accounts_for_every_item_witness :
  exists m,
    copiesOf "fruit"
      (LegacySync.mergeLibraries [fruitLocal; fruitRemote] [fruitRemote])
    = [m]
    /\ exists it', In it' (Lib.items m)
                   /\ LegacySync.uniqueKeyOfItem it'
                      = LegacySync.uniqueKeyOfItem pear.
Proof.
  destruct (union_accounts_for_every_item
              [fruitLocal; fruitRemote] [fruitRemote] "fruit")
    as (m & Hm & _ & Hcover).
  - simpl. discriminate.
  - exists m. split; [exact Hm|].
    apply (Hcover fruitRemote pear); simpl; auto.
Defined.

(* ================================================================= *)
(** * The orchestrator of the superseded module *)

Section LegacyRuns.
Import Orchestrator.

Opaque LegacySync.mergeLibraries.

(** The run of the superseded [pullAndMerge] against an existing
    document when Firestore answers. *)
Lemma legacy_pullAndMerge_merge (uid : string) (w : World) (data : Firestore.Doc) :
  getDocFault w = None -> setDocFault w = None -> cloud w uid = Some data ->
  let mergedLibs :=
    LegacySync.mergeLibraries (Storage.libraries (store w))
      (Firestore.arrayOrEmpty (Firestore.libraries data)) in
  let chosen :=
    LegacyOrchestrator.chooseProgress (Firestore.practiceProgress data)
      (Storage.practiceProgress (store w)) in
  LegacyOrchestrator.pullAndMerge uid w =
  (Returned tt,
   mkWorld
     (persistProgress chosen (Storage.saveLibraries mergedLibs (store w)))
     (fun u =>
        if String.eqb u uid
        then Some (Firestore.mkDoc (Firestore.IsArray mergedLibs)
                                   Firestore.NotArray chosen
                                   (Some (clock w)) (Some (serverClock w)))
        else cloud w u)
     (clock w) (serverClock w) None None (console w)).
Proof.
  destruct w as [st cl ck sck gf sf con]. simpl. intros -> -> Hc.
  unfold LegacyOrchestrator.pullAndMerge.
  unfold bind at 1. unfold getDoc at 1. simpl. rewrite Hc.
  unfold bind at 1. unfold loadLibraries at 1. simpl.
  unfold bind at 1. unfold loadPracticeProgress at 1. simpl.
  unfold bind at 1. unfold saveLibraries at 1. simpl.
  unfold Storage.loadLibraries, Storage.loadPracticeProgress.
  set (mergedLibs := LegacySync.mergeLibraries _ _).
  unfold bind at 1.
  destruct (LegacyOrchestrator.chooseProgress (Firestore.practiceProgress data)
              (Storage.practiceProgress st)) as [p|] eqn:Ch; simpl.
  - unfold try_catch, savePracticeProgress, set_store. simpl.
    destruct (Storage.savePracticeProgress p _) as [s2|] eqn:Sv; simpl.
    + unfold bind, dateNow, LegacyOrchestrator.setDoc, set_cloud. simpl.
      reflexivity.
    + unfold ret, bind, dateNow, LegacyOrchestrator.setDoc, set_cloud. simpl.
      reflexivity.
  - unfold ret, bind, dateNow, LegacyOrchestrator.setDoc, set_cloud. simpl.
    reflexivity.
Qed.

Transparent LegacySync.mergeLibraries.

(** The first sync of the superseded [pullAndMerge]. *)
Lemma legacy_pullAndMerge_first_sync (uid : string) (w : World) :
  getDocFault w = None -> setDocFault w = None -> cloud w uid = None ->
  LegacyOrchestrator.pullAndMerge uid w =
  (Returned tt,
   mkWorld (store w)
     (fun u =>
        if String.eqb u uid
        then Some (Firestore.mkDoc
                     (Firestore.IsArray (Storage.libraries (store w)))
                     Firestore.NotArray
                     (Storage.practiceProgress (store w))
                     (Some (clock w)) (Some (serverClock w)))
        else cloud w u)
     (clock w) (serverClock w) None None (console w)).
Proof.
  destruct w as [st cl ck sck gf sf con]. simpl. intros -> -> Hc.
  unfold LegacyOrchestrator.pullAndMerge, bind, getDoc, loadLibraries,
    loadPracticeProgress, dateNow, LegacyOrchestrator.setDoc, set_cloud.
  simpl. rewrite Hc. reflexivity.
Qed.

End LegacyRuns.

(** X17 -- the superseded sync brings every remote library back: after
    it, each library of the remote document has its id among the
    libraries of the Local Store, also when that id is in the Local
    Store's tombstones, which the run neither reads nor changes. *)
Theorem legacy_sync_resurrects (uid : string) (w : World) (data : Firestore.Doc) :
  getDocFault w = None -> setDocFault w = None -> cloud w uid = Some data ->
  exists w',
    LegacyOrchestrator.pullAndMerge uid w = (Returned tt, w')
    /\ Storage.deletedLibraryIds (store w') = Storage.deletedLibraryIds (store w)
    /\ forall lib,
         In lib (Firestore.arrayOrEmpty (Firestore.libraries data)) ->
         In (Lib.id lib) (map Lib.id (Storage.libraries (store w'))).
Proof.
  intros Hg Hs Hc. eexists.
  split; [apply (legacy_pullAndMerge_merge uid w data Hg Hs Hc)|].
  cbn [store]. rewrite persistProgress_libraries.
  unfold Storage.saveLibraries. cbn [Storage.libraries]. split.
  - unfold persistProgress, Storage.savePracticeProgress.
    cbn [Storage.progressWritable Storage.deletedLibraryIds].
    destruct (LegacyOrchestrator.chooseProgress _ _); [|reflexivity].
    now destruct (Storage.progressWritable (store w)).
  - intros lib Hlib. apply mergeLibraries_keeps_ids. apply in_or_app. now right.
Qed.

Lemma legacy_sync_resurrects_witness :
  exists w',
    LegacyOrchestrator.pullAndMerge "u1"
      (mkWorld (Storage.mkStore [tieLocal] ["fruit"] None true)
         (fun _ => Some (Firestore.mkDoc (Firestore.IsArray [fruitRemote])
                                         (Firestore.IsArray ["fruit"])
                                         None None None))
         5 6 None None [])
    = (Returned tt, w')
    /\ In "fruit" (map Lib.id (Storage.libraries (store w'))).
Proof.
  destruct (legacy_sync_resurrects "u1"
              (mkWorld (Storage.mkStore [tieLocal] ["fruit"] None true)
                 (fun _ => Some (Firestore.mkDoc (Firestore.IsArray [fruitRemote])
                                                 (Firestore.IsArray ["fruit"])
                                                 None None None))
                 5 6 None None [])
              (Firestore.mkDoc (Firestore.IsArray [fruitRemote])
                               (Firestore.IsArray ["fruit"]) None None None))
    as (w' & Hrun & _ & Hback).
  - reflexivity.
  - reflexivity.
  - reflexivity.
  - exists w'. split; [exact Hrun|]. apply (Hback fruitRemote). now left.
Defined.

(** X18 -- the superseded sync erases the remote tombstones: whatever
    the remote document held, the document it writes has no
    [deletedLibraryIds] array, so a tombstone-aware sync that reads it
    finds no remote tombstone. *)
Theorem legacy_sync_drops_remote_tombstones (uid : string) (w : World) :
  getDocFault w = None -> setDocFault w = None ->
  exists w' d',
    LegacyOrchestrator.pullAndMerge uid w = (Returned tt, w')
    /\ cloud w' uid = Some d'
    /\ Firestore.deletedLibraryIds d' = Firestore.NotArray
    /\ Firestore.arrayOrEmpty (Firestore.deletedLibraryIds d') = [].
Proof.
  intros Hg Hs. destruct (cloud w uid) as [data|] eqn:Hc.
  - eexists. eexists.
    split; [apply (legacy_pullAndMerge_merge uid w data Hg Hs Hc)|].
    cbn [cloud]. rewrite String.eqb_refl. repeat split.
  - eexists. eexists.
    split; [apply (legacy_pullAndMerge_first_sync uid w Hg Hs Hc)|].
    cbn [cloud]. rewrite String.eqb_refl. repeat split.
Qed.

Lemma legacy_sync_drops_remote_tombstones_witness :
  exists w' d',
    LegacyOrchestrator.pullAndMerge "u1"
      (mkWorld (Storage.mkStore [tieLocal] [] None true)
         (fun _ => Some (Firestore.mkDoc (Firestore.IsArray [fruitRemote])
                                         (Firestore.IsArray ["fruit"; "a"])
                                         None None None))
         5 6 None None [])
    = (Returned tt, w')
    /\ cloud w' "u1" = Some d'
    /\ Firestore.deletedLibraryIds d' = Firestore.NotArray.
Proof.
  destruct (legacy_sync_drops_remote_tombstones "u1"
              (mkWorld (Storage.mkStore [tieLocal] [] None true)
                 (fun _ => Some (Firestore.mkDoc (Firestore.IsArray [fruitRemote])
                                                 (Firestore.IsArray ["fruit"; "a"])
                                                 None None None))
                 5 6 None None []))
    as (w' & d' & Hrun & Hdoc & Hdel & _).
  - reflexivity.
  - reflexivity.
  - exists w', d'. repeat split; assumption.
Defined.

Section LegacyFaults.
Import Orchestrator.

Opaque LegacySync.mergeLibraries.

Lemma legacy_pullAndMerge_merge_fault (uid : string) (w : World)
    (data : Firestore.Doc) (e : Firestore.Error) :
  getDocFault w = None -> setDocFault w = Some e -> cloud w uid = Some data ->
  LegacyOrchestrator.pullAndMerge uid w =
  (Threw e,
   mkWorld
     (persistProgress
        (LegacyOrchestrator.chooseProgress (Firestore.practiceProgress data)
           (Storage.practiceProgress (store w)))
        (Storage.saveLibraries
           (LegacySync.mergeLibraries (Storage.libraries (store w))
              (Firestore.arrayOrEmpty (Firestore.libraries data)))
           (store w)))
     (cloud w) (clock w) (serverClock w) None (Some e) (console w)).
Proof.
  destruct w as [st cl ck sck gf sf con]. simpl. intros -> -> Hc.
  unfold LegacyOrchestrator.pullAndMerge.
  unfold bind at 1. unfold getDoc at 1. simpl. rewrite Hc.
  unfold bind at 1. unfold loadLibraries at 1. simpl.
  unfold bind at 1. unfold loadPracticeProgress at 1. simpl.
  unfold bind at 1. unfold saveLibraries at 1. simpl.
  unfold Storage.loadLibraries, Storage.loadPracticeProgress.
  set (mergedLibs := LegacySync.mergeLibraries _ _).
  unfold bind at 1.
  destruct (LegacyOrchestrator.chooseProgress (Firestore.practiceProgress data)
              (Storage.practiceProgress st)) as [p|] eqn:Ch; simpl.
  - unfold try_catch, savePracticeProgress, set_store. simpl.
    destruct (Storage.savePracticeProgress p _) as [s2|] eqn:Sv; simpl.
    + unfold bind, dateNow, LegacyOrchestrator.setDoc. simpl. reflexivity.
    + unfold ret, bind, dateNow, LegacyOrchestrator.setDoc. simpl. reflexivity.
  - unfold ret, bind, dateNow, LegacyOrchestrator.setDoc. simpl. reflexivity.
Qed.

Transparent LegacySync.mergeLibraries.

Lemma legacy_pullAndMerge_first_sync_fault (uid : string) (w : World)
    (e : Firestore.Error) :
  getDocFault w = None -> setDocFault w = Some e -> cloud w uid = None ->
  LegacyOrchestrator.pullAndMerge uid w = (Threw e, w).
Proof.
  destruct w as [st cl ck sck gf sf con]. simpl. intros -> -> Hc.
  unfold LegacyOrchestrator.pullAndMerge, bind, getDoc, loadLibraries,
    loadPracticeProgress, dateNow, LegacyOrchestrator.setDoc.
  simpl. rewrite Hc. reflexivity.
Qed.

Lemma legacy_pullAndMerge_fetch_fault (uid : string) (w : World)
    (e : Firestore.Error) :
  getDocFault w = Some e ->
  LegacyOrchestrator.pullAndMerge uid w = (Threw e, w).
Proof.
  intros Hg. unfold LegacyOrchestrator.pullAndMerge, bind, getDoc.
  now rewrite Hg.
Qed.

End LegacyFaults.

(** X19 -- the superseded [pullAndMerge] has no [catch]: whatever it
    throws is the very error Firestore answered the fetch or the upload
    with, [code] included; no document has changed then, though the Local
    Store may already hold the merged libraries. *)
Theorem legacy_errors_are_raw (uid : string) (w w' : World)
    (err : Firestore.Error) :
  LegacyOrchestrator.pullAndMerge uid w = (Threw err, w') ->
  (getDocFault w = Some err \/
   (getDocFault w = None /\ setDocFault w = Some err))
  /\ cloud w' = cloud w.
Proof.
  intros Hrun.
  destruct (getDocFault w) as [e|] eqn:Hg.
  - rewrite (legacy_pullAndMerge_fetch_fault uid w e Hg) in Hrun.
    injection Hrun as -> <-. split; [now left | reflexivity].
  - destruct (setDocFault w) as [e|] eqn:Hs.
    + destruct (cloud w uid) as [data|] eqn:Hc.
      * rewrite (legacy_pullAndMerge_merge_fault uid w data e Hg Hs Hc) in Hrun.
        injection Hrun as -> <-. split; [now right | reflexivity].
      * rewrite (legacy_pullAndMerge_first_sync_fault uid w e Hg Hs Hc) in Hrun.
        injection Hrun as -> <-. split; [now right | reflexivity].
    + destruct (cloud w uid) as [data|] eqn:Hc.
      * rewrite (legacy_pullAndMerge_merge uid w data Hg Hs Hc) in Hrun.
        discriminate.
      * rewrite (legacy_pullAndMerge_first_sync uid w Hg Hs Hc) in Hrun.
        discriminate.
Qed.

Lemma legacy_errors_are_raw_witness :
  (getDocFault
     (mkWorld (Storage.mkStore [tieLocal] [] None true)
        (fun _ => Some (Firestore.mkDoc (Firestore.IsArray [fruitRemote])
                                        Firestore.NotArray None None None))
        5 6 None (Some (Firestore.mkError (Some "unavailable") "offline")) [])
   = Some (Firestore.mkError (Some "unavailable") "offline") \/
   (getDocFault
      (mkWorld (Storage.mkStore [tieLocal] [] None true)
         (fun _ => Some (Firestore.mkDoc (Firestore.IsArray [fruitRemote])
                                         Firestore.NotArray None None None))
         5 6 None (Some (Firestore.mkError (Some "unavailable") "offline")) [])
    = None /\
    setDocFault
      (mkWorld (Storage.mkStore [tieLocal] [] None true)
         (fun _ => Some (Firestore.mkDoc (Firestore.IsArray [fruitRemote])
                                         Firestore.NotArray None None None))
         5 6 None (Some (Firestore.mkError (Some "unavailable") "offline")) [])
    = Some (Firestore.mkError (Some "unavailable") "offline")))
  /\ cloud
       (snd (LegacyOrchestrator.pullAndMerge "u1"
               (mkWorld (Storage.mkStore [tieLocal] [] None true)
                  (fun _ => Some (Firestore.mkDoc (Firestore.IsArray [fruitRemote])
                                                  Firestore.NotArray None None None))
                  5 6 None
                  (Some (Firestore.mkError (Some "unavailable") "offline")) [])))
     = cloud
         (mkWorld (Storage.mkStore [tieLocal] [] None true)
            (fun _ => Some (Firestore.mkDoc (Firestore.IsArray [fruitRemote])
                                            Firestore.NotArray None None None))
            5 6 None (Some (Firestore.mkError (Some "unavailable") "offline")) []).
Proof.
  apply (legacy_errors_are_raw "u1"). reflexivity.
Defined.

(* ================================================================= *)
(** * The debounced push of [App] *)

(** An edit by a logged-in user leaves one timeout pending, the one it
    has just set. *)
Lemma handleLibrariesChange_schedules (libs : list VocabularyLibrary)
    (st : App.State) (uid : string) :
  timersInOrder st -> App.user st = Some uid ->
  App.timers (App.handleLibrariesChange libs st)
  = App.mkTimers [(App.nextHandle (App.timers st), uid)]
                 (S (App.nextHandle (App.timers st)))
  /\ App.pushTimerRef (App.handleLibrariesChange libs st)
     = Some (App.nextHandle (App.timers st)).
Proof.
  intros [Hnext Hpend] Huser. unfold App.handleLibrariesChange. rewrite Huser.
  assert (Hcleared :
    match App.pushTimerRef st with
    | Some h => if Nat.eqb h 0 then App.timers st
                else App.clearTimeout h (App.timers st)
    | None => App.timers st
    end = App.mkTimers [] (App.nextHandle (App.timers st))).
  { destruct (App.timers st) as [pending next] eqn:T. simpl in *.
    destruct Hpend as [->|(h & u & -> & Href & Hh)].
    - destruct (App.pushTimerRef st) as [h|]; [|reflexivity].
      now destruct (Nat.eqb h 0).
    - rewrite Href. destruct (Nat.eqb_spec h 0) as [->|_]; [lia|].
      unfold App.clearTimeout. simpl. now rewrite Nat.eqb_refl. }
  rewrite Hcleared. split; reflexivity.
Qed.

Lemma handleLibrariesChange_inOrder (libs : list VocabularyLibrary)
    (st : App.State) :
  timersInOrder st -> timersInOrder (App.handleLibrariesChange libs st).
Proof.
  intros Hst. destruct (App.user st) as [uid|] eqn:Huser.
  - destruct (handleLibrariesChange_schedules libs st uid Hst Huser)
      as [Htimers Href].
    unfold timersInOrder. rewrite Htimers, Href. simpl.
    destruct Hst as [Hnext _]. split; [lia|].
    right. exists (App.nextHandle (App.timers st)), uid.
    split; [reflexivity|]. split; [reflexivity|]. lia.
  - unfold App.handleLibrariesChange. rewrite Huser. exact Hst.
Qed.

Lemma timerFires_inOrder (h : nat) (st : App.State) :
  timersInOrder st -> timersInOrder (App.timerFires h st).
Proof.
  intros [Hnext Hpend]. unfold App.timerFires.
  destruct (find _ _) as [[h' uid]|] eqn:F; [|split; assumption].
  split; [exact Hnext|]. left.
  destruct Hpend as [Hnil|(h0 & u & Hone & _ & _)].
  - rewrite Hnil in F. discriminate.
  - unfold App.clearTimeout. simpl. rewrite Hone in *. simpl in *.
    destruct (Nat.eqb h0 h); [reflexivity | discriminate].
Qed.

Lemma run_inOrder (events : list App.Event) :
  forall st, timersInOrder st -> timersInOrder (App.run events st).
Proof.
  unfold App.run.
  induction events as [|ev events IH]; intros st Hst; simpl; [assumption|].
  apply IH. destruct ev as [libs|h|u]; simpl.
  - now apply handleLibrariesChange_inOrder.
  - now apply timerFires_inOrder.
  - exact Hst.
Qed.

Lemma initial_inOrder (w : World) : timersInOrder (App.initial w).
Proof.
  split; simpl; [lia | now left].
Qed.

(** X20 -- edits coalesce: whatever the user edits, whenever timeouts
    fire and whoever logs in or out in between, the component never has
    more than one push scheduled. *)
Theorem at_most_one_pending_push (w : World) (events : list App.Event) :
  (List.length (App.pending (App.timers (App.run events (App.initial w)))) <= 1)%nat.
Proof.
  destruct (run_inOrder events _ (initial_inOrder w))
    as [_ [Hnil|(h & uid & Hone & _)]].
  - rewrite Hnil. simpl. lia.
  - rewrite Hone. simpl. lia.
Qed.




(* ================================================================= *)
(** * Best-effort persistence of the progress *)

(** X22 -- a Local Store that refuses the progress does not fail the
    sync: [pullAndMerge] still returns normally and uploads the progress
    it chose, while the progress in the Local Store stays what it was. *)
Theorem progress_save_failure_swallowed (uid : string) (w : World)
    (data : Firestore.Doc) :
  getDocFault w = None -> setDocFault w = None -> cloud w uid = Some data ->
  Storage.progressWritable (store w) = false ->
  exists w' d',
    Orchestrator.pullAndMerge uid w = (Returned tt, w')
    /\ Storage.practiceProgress (store w') = Storage.practiceProgress (store w)
    /\ cloud w' uid = Some d'
    /\ Firestore.practiceProgress d'
       = Orchestrator.chooseProgress (Firestore.practiceProgress data)
           (Storage.practiceProgress (store w)).
Proof.
  intros Hg Hs Hc Hw.
  destruct (pullAndMerge_success uid w data Hg Hs Hc)
    as (w' & Hrun & Hstore & Hdoc & _).
  destruct (storeAfterSync_fields (store w) data) as (news & _ & _ & _ & Hst).
  exists w'. eexists. split; [exact Hrun|]. rewrite Hstore, Hst, Hw.
  split; [reflexivity|]. split; [exact Hdoc | reflexivity].
Qed.

Lemma progress_save_failure_swallowed_witness :
  exists w' d',
    Orchestrator.pullAndMerge "u1"
      (mkWorld (Storage.mkStore [tieLocal] [] (Some (mkProgress "a" 1 50)) false)
         (fun _ => Some (Firestore.mkDoc (Firestore.IsArray []) (Firestore.IsArray [])
                                         (Some (mkProgress "a" 7 90)) None None))
         5 6 None None [])
    = (Returned tt, w')
    /\ Storage.practiceProgress (store w') = Some (mkProgress "a" 1 50)
    /\ cloud w' "u1" = Some d'
    /\ Firestore.practiceProgress d' = Some (mkProgress "a" 7 90).
Proof.
  destruct (progress_save_failure_swallowed "u1"
              (mkWorld (Storage.mkStore [tieLocal] []
                          (Some (mkProgress "a" 1 50)) false)
                 (fun _ => Some (Firestore.mkDoc (Firestore.IsArray [])
                                                 (Firestore.IsArray [])
                                                 (Some (mkProgress "a" 7 90))
                                                 None None))
                 5 6 None None [])
              (Firestore.mkDoc (Firestore.IsArray []) (Firestore.IsArray [])
                               (Some (mkProgress "a" 7 90)) None None))
    as (w' & d' & Hrun & Hlocal & Hdoc & Hup).
  - reflexivity.
  - reflexivity.
  - reflexivity.
  - reflexivity.
  - exists w', d'. repeat split; assumption.
Defined.
